(** * The frame driver of the arcade web page (website/js/App.js)

    A shallow embedding of the classes [Game] and [Canvas] of
    [website/js/App.js]: the control loop [Game.run], the decoder and
    drawing pipeline [Game.render] and the drawing methods of [Canvas].

    The compiled engine ([rust.Game], loaded from [../pkg/index]) and the
    browser (the 2D drawing context, [setTimeout]) are outside the file;
    the engine is an interface the development is parametric in, the
    browser calls are recorded in a trace. *)

From Stdlib Require Import ZArith QArith Qround Qreduction Qcanon.
From Stdlib Require Import List Strings.String Strings.Byte Bool Lia.
Import ListNotations.

Close Scope Qc_scope.
Close Scope Q_scope.

(** ** JavaScript numbers

    The numbers the program computes with are integers that come out of
    the engine, array indices, and the quotients and products the program
    forms from them.  A finite number is modelled by the rational it
    denotes (every finite double is one), kept in lowest terms; the three
    non-finite values are separate constructors.  Arithmetic on finite
    values is exact: the rounding of doubles is not modelled, and the
    negative zero is identified with zero (the program never divides by a
    computed zero: its divisors are [cols] and [rows], integers of the
    engine). *)
Module JsNum.
Local Open Scope Q_scope.

Inductive num : Type :=
| Fin (q : Q)
| PInf
| NInf
| NaN.

Definition fin (q : Q) : num := Fin (Qred q).
Definition of_Z (z : Z) : num := Fin (inject_Z z).
Definition of_nat (n : nat) : num := of_Z (Z.of_nat n).

(** The sign of a rational, as a comparison with zero. *)
Definition sgn (q : Q) : comparison := (Qnum q ?= 0)%Z.

Definition neg (a : num) : num :=
  match a with
  | Fin q => fin (- q)
  | PInf => NInf
  | NInf => PInf
  | NaN => NaN
  end.

(** [a + b] *)
Definition add (a b : num) : num :=
  match a, b with
  | NaN, _ | _, NaN => NaN
  | Fin x, Fin y => fin (x + y)
  | PInf, NInf | NInf, PInf => NaN
  | PInf, _ | _, PInf => PInf
  | NInf, _ | _, NInf => NInf
  end.

(** [a - b] *)
Definition sub (a b : num) : num := add a (neg b).

(** The infinity of the given sign; a zero sign gives [NaN]
    (zero times infinity). *)
Definition inf_of (c : comparison) : num :=
  match c with
  | Gt => PInf
  | Lt => NInf
  | Eq => NaN
  end.

Definition sgn_num (a : num) : comparison :=
  match a with
  | Fin q => sgn q
  | PInf => Gt
  | NInf => Lt
  | NaN => Eq
  end.

Definition sgn_mul (c d : comparison) : comparison :=
  match c, d with
  | Eq, _ | _, Eq => Eq
  | Gt, Gt | Lt, Lt => Gt
  | _, _ => Lt
  end.

(** [a * b] *)
Definition mul (a b : num) : num :=
  match a, b with
  | NaN, _ | _, NaN => NaN
  | Fin x, Fin y => fin (x * y)
  | _, _ => inf_of (sgn_mul (sgn_num a) (sgn_num b))
  end.

(** [a / b]; a finite number over zero is an infinity of the sign of
    the dividend, zero over zero is [NaN]. *)
Definition div (a b : num) : num :=
  match a, b with
  | NaN, _ | _, NaN => NaN
  | Fin x, Fin y =>
      match sgn y with
      | Eq => inf_of (sgn x)
      | _ => fin (x / y)
      end
  | Fin _, _ => Fin 0
  | _, Fin y =>
      match sgn y with
      | Lt => neg a
      | _ => a
      end
  | _, _ => NaN
  end.

(** [Math.floor(a)] *)
Definition floor (a : num) : num :=
  match a with
  | Fin q => of_Z (Qfloor q)
  | _ => a
  end.

(** The integer part of a rational, rounded towards zero. *)
Definition Qtrunc (q : Q) : Z :=
  if Qle_bool 0 q then Qfloor q else Qceiling q.

(** [a % b]: the remainder of the division truncated towards zero; it
    has the sign of the dividend. *)
Definition rem (a b : num) : num :=
  match a, b with
  | Fin x, Fin y =>
      match sgn y with
      | Eq => NaN
      | _ => fin (x - y * inject_Z (Qtrunc (x / y)))
      end
  | Fin _, PInf | Fin _, NInf => a
  | _, _ => NaN
  end.

(** [a > b]; every comparison with [NaN] is false. *)
Definition gtb (a b : num) : bool :=
  match a, b with
  | NaN, _ | _, NaN => false
  | Fin x, Fin y => negb (Qle_bool x y)
  | PInf, PInf => false
  | PInf, _ => true
  | _, NInf => match a with NInf => false | _ => true end
  | _, _ => false
  end.

(** [a <= b] *)
Definition leb (a b : num) : bool :=
  match a, b with
  | NaN, _ | _, NaN => false
  | Fin x, Fin y => Qle_bool x y
  | NInf, _ => true
  | _, PInf => true
  | _, _ => false
  end.

(** [a < b] *)
Definition ltb (a b : num) : bool := gtb b a.

(** The literals of the program. *)
Definition half : num := Fin (1 # 2).
Definition one_point_75 : num := Fin (7 # 4).
(** [Math.PI], the double nearest to pi. *)
Definition Math_PI : num := Fin (884279719003555 # 281474976710656).

End JsNum.
Import JsNum.

(** ** Exceptions, traces and the monad of the host code *)

(** The two errors the code can raise: the [Error] thrown by the drawing
    methods ([`(${x}, ${y}) is out of bounds.`], with the offending
    coordinates), and the [RangeError] of the typed-array constructor when
    the requested window does not fit the buffer. *)
Inductive exn : Type :=
| OutOfBounds (x y : num)
| RangeError.

Inductive result (A : Type) : Type :=
| Ok (a : A)
| Throw (e : exn).
Arguments Ok {A} a.
Arguments Throw {A} e.

Definition is_ok {A : Type} (r : result A) : bool :=
  match r with
  | Ok _ => true
  | Throw _ => false
  end.

(** A call on the 2D drawing context ([this.ctx]); an assignment to one of
    its properties is a call too. *)
Inductive ctx_op : Type :=
| clearRect (x y w h : num)
| set_globalCompositeOperation (v : string)
| set_lineWidth (v : num)
| set_strokeStyle (v : string)
| strokeRect (x y w h : num)
| beginPath
| arc (x y radius startAngle endAngle : num) (anticlockwise : bool)
| rect (x y w h : num)
| set_fillStyle (v : string)
| fill
| set_font (v : string)
| fillText (text x y : num).

(** A method call on the [Canvas] object, with its arguments. *)
Inductive canvas_call : Type :=
| Clear
| DrawBorder
| DrawScore (score : num)
| DrawBlock (x y : num) (color : option string)
| DrawBall (x y : num) (color : option string).

(** What the trace records, in the order in which it happens: the two
    calls that reach the engine's transition system ([step] with what it
    returned, [input] with the move it was given), the entry into
    [render], the construction of the byte view, the calls on the canvas
    object and on its drawing context, the registration of a timer, and
    the report of an exception nobody caught. *)
Inductive event (move : Type) : Type :=
| EStep (r : option move)
| EInput (m : move)
| ERender
| EView (byteOffset length : Z)
| ECanvas (c : canvas_call)
| ECtx (o : ctx_op)
| ESetTimeout (ms : Z)
| EUncaught (e : exn).
Arguments EStep {move} r.
Arguments EInput {move} m.
Arguments ERender {move}.
Arguments EView {move} byteOffset length.
Arguments ECanvas {move} c.
Arguments ECtx {move} o.
Arguments ESetTimeout {move} ms.
Arguments EUncaught {move} e.

(** A computation over a state [S] that may throw and that appends to a
    trace of [Ev]: the state reached is returned also when it throws (what
    was drawn stays drawn). *)
Definition M (S Ev A : Type) : Type := S -> result A * S * list Ev.

Section Monad.
Context {S Ev : Type}.

Definition ret {A : Type} (a : A) : M S Ev A := fun s => (Ok a, s, []).

Definition bind {A B : Type} (m : M S Ev A) (k : A -> M S Ev B) : M S Ev B :=
  fun s =>
    match m s with
    | (Ok a, s1, t1) =>
        match k a s1 with
        | (r, s2, t2) => (r, s2, t1 ++ t2)
        end
    | (Throw e, s1, t1) => (Throw e, s1, t1)
    end.

Definition throw {A : Type} (e : exn) : M S Ev A := fun s => (Throw e, s, []).
Definition emit (ev : Ev) : M S Ev unit := fun s => (Ok tt, s, [ev]).
Definition gets {A : Type} (f : S -> A) : M S Ev A := fun s => (Ok (f s), s, []).

(** The three components of an execution. *)
Definition outcome {A : Type} (m : M S Ev A) (s : S) : result A := fst (fst (m s)).
Definition final {A : Type} (m : M S Ev A) (s : S) : S := snd (fst (m s)).
Definition trace {A : Type} (m : M S Ev A) (s : S) : list Ev := snd (m s).

End Monad.

Declare Scope host_scope.
Delimit Scope host_scope with host.
Notation "x <- m ;; k" := (bind m (fun x => k))
  (at level 100, m at next level, right associativity) : host_scope.
Notation "m ;; k" := (bind m (fun _ => k))
  (at level 100, right associativity) : host_scope.
Open Scope host_scope.

(** ** The canvas *)

(** The [canvas] element handed to the page: only its pixel size is read. *)
Record HTMLCanvas : Type := {
  can_width : Z;
  can_height : Z
}.

(** The fields of a [Canvas] object ([this.can] and [this.ctx] are the
    element and its context, whose calls go to the trace). *)
Record Canvas : Type := {
  cols : Z;
  rows : Z;
  width : Z;
  height : Z;
  colWidth : num;
  rowHeight : num
}.

(** [constructor(can, cols, rows)] *)
Definition Canvas_new (can : HTMLCanvas) (cols rows : Z) : Canvas := {|
  cols := cols;
  rows := rows;
  width := can_width can;
  height := can_height can;
  colWidth := div (of_Z (can_width can)) (of_Z cols);
  rowHeight := div (of_Z (can_height can)) (of_Z rows)
|}.

(** [!color]: an argument that was not passed, or the empty string. *)
Definition falsy (color : option string) : bool :=
  match color with
  | None => true
  | Some c => String.eqb c ""
  end.

(** [if (!color) { color = 'navy' }] *)
Definition color_or_navy (color : option string) : string :=
  if falsy color then "navy"
  else match color with
       | Some c => c
       | None => "navy"
       end.

Section CanvasMethods.
Context {S move : Type}.
Variable this : Canvas.

Definition ctx (o : ctx_op) : M S (event move) unit := emit (ECtx o).

Definition clear : M S (event move) unit :=
  emit (ECanvas Clear) ;;
  ctx (clearRect (of_Z 0) (of_Z 0) (of_Z (width this)) (of_Z (height this))).

Definition drawBorder : M S (event move) unit :=
  emit (ECanvas DrawBorder) ;;
  ctx (set_globalCompositeOperation "source-over") ;;
  ctx (set_lineWidth (of_Z 5)) ;;
  ctx (set_strokeStyle "#000000") ;;
  ctx (strokeRect (of_Z 0) (of_Z 0) (of_Z (width this)) (of_Z (height this))).

Definition drawBall (x y : num) (color : option string) : M S (event move) unit :=
  emit (ECanvas (DrawBall x y color)) ;;
  if gtb x (of_Z (cols this)) || gtb y (of_Z (rows this)) then
    throw (OutOfBounds x y)
  else
    let color := color_or_navy color in
    let x := mul (colWidth this) (add x half) in
    let y := mul (rowHeight this) (add y half) in
    ctx beginPath ;;
    ctx (arc x y (div (rowHeight this) (of_Z 2)) (of_Z 0)
             (mul (of_Z 2) Math_PI) false) ;;
    ctx (set_fillStyle color) ;;
    ctx fill.

Definition drawBlock (x y : num) (color : option string) : M S (event move) unit :=
  emit (ECanvas (DrawBlock x y color)) ;;
  if gtb x (of_Z (cols this)) || gtb y (of_Z (rows this)) then
    throw (OutOfBounds x y)
  else
    let color := color_or_navy color in
    let x := mul (colWidth this) x in
    let y := mul (rowHeight this) y in
    ctx beginPath ;;
    ctx (rect x y (colWidth this) (rowHeight this)) ;;
    ctx (set_fillStyle color) ;;
    ctx fill.

Definition drawScore (score : num) : M S (event move) unit :=
  emit (ECanvas (DrawScore score)) ;;
  ctx (set_font "25px Arial") ;;
  ctx (set_fillStyle "0,0,0") ;;
  ctx (fillText score
         (mul (sub (of_Z (cols this)) (of_Z 3)) (colWidth this))
         (mul one_point_75 (rowHeight this))).

End CanvasMethods.

(** ** The engine

    [rust.Game] is compiled from sources that are not part of the page; the
    page reaches it through seven methods and through the memory of the
    module ([this.wasm.memory.buffer]).  The development is parametric in
    an implementation of this interface.  The five accessors are reads of
    the engine's state, as the description of the engine handle has them;
    [step] and [input] may change the state.  The numbers that cross the
    boundary are integers. *)
Module Rust.

Record Engine : Type := {
  state : Type;
  move : Type;
  cols : state -> Z;
  rows : state -> Z;
  score : state -> Z;
  display : state -> Z;
  display_len : state -> Z;
  memory_buffer : state -> list byte;
  step : state -> option move * state;
  input : move -> state -> state
}.

End Rust.

(** [new Uint8Array(buffer, byteOffset, length)]: a window on the buffer,
    refused with a [RangeError] when it does not fit. *)
Definition Uint8Array_new (buffer : list byte) (byteOffset len : Z)
  : result (list byte) :=
  if ((0 <=? byteOffset) && (0 <=? len)
      && (byteOffset + len <=? Z.of_nat (List.length buffer)))%Z
  then Ok (firstn (Z.to_nat len) (skipn (Z.to_nat byteOffset) buffer))
  else Throw RangeError.

(** [byte === n] *)
Definition byte_is (b : byte) (n : N) : bool := N.eqb (Byte.to_N b) n.

Section ForEach.
Context {S Ev : Type}.

(** [view.forEach(f)]: the callback gets each element and its index, in
    index order; an exception of the callback ends the iteration. *)
Fixpoint forEach_from (i : nat) (view : list byte)
  (f : byte -> nat -> M S Ev unit) : M S Ev unit :=
  match view with
  | [] => ret tt
  | b :: rest => f b i ;; forEach_from (Datatypes.S i) rest f
  end.

Definition forEach (view : list byte) (f : byte -> nat -> M S Ev unit)
  : M S Ev unit :=
  forEach_from 0 view f.

(** An exception that reaches the event loop is reported and dropped. *)
Definition uncaught (report : exn -> Ev) {A : Type} (m : M S Ev A)
  : M S Ev unit :=
  fun s =>
    match m s with
    | (Ok _, s1, t) => (Ok tt, s1, t)
    | (Throw e, s1, t) => (Ok tt, s1, t ++ [report e])
    end.

End ForEach.

(** ** The game object and its loop *)
Section Game.
Variable E : Rust.Engine.

(** The state the page's code runs in: the engine ([this.game], with the
    memory of its module) and the timers that wait to fire; every timer of
    the page carries the same callback, [this.run], so that a timer is its
    delay. *)
Record Host : Type := {
  game : Rust.state E;
  timers : list Z
}.

(** The fields of a [Game] object that are not in the host state. *)
Record Game : Type := {
  canvas : Canvas
}.

(** [constructor(can, rust, wasm)], for the state of a [new rust.Game()]. *)
Definition Game_new (can : HTMLCanvas) (g0 : Rust.state E) : Game := {|
  canvas := Canvas_new can (Rust.cols E g0) (Rust.rows E g0)
|}.

(** [this.game.step()] *)
Definition game_step : M Host (event (Rust.move E)) (option (Rust.move E)) :=
  fun h =>
    match Rust.step E (game h) with
    | (r, g1) => (Ok r, {| game := g1; timers := timers h |}, [EStep r])
    end.

(** [this.game.input(m)] *)
Definition game_input (m : Rust.move E) : M Host (event (Rust.move E)) unit :=
  fun h =>
    (Ok tt, {| game := Rust.input E m (game h); timers := timers h |},
     [EInput m]).

(** [setTimeout(this.run.bind(this), ms)] *)
Definition setTimeout (ms : Z) : M Host (event (Rust.move E)) unit :=
  fun h =>
    (Ok tt, {| game := game h; timers := timers h ++ [ms] |},
     [ESetTimeout ms]).

(** The [new Uint8Array(...)] of [render], on the state of the moment. *)
Definition new_view (buffer : list byte) (byteOffset len : Z)
  : M Host (event (Rust.move E)) (list byte) :=
  emit (EView byteOffset len) ;;
  match Uint8Array_new buffer byteOffset len with
  | Ok view => ret view
  | Throw e => throw e
  end.

(** The chain of tests of the callback of [render], at the coordinates
    [x], [y] of the cell. *)
Definition draw_cell (this : Game) (x y : num) (b : byte) : M Host (event (Rust.move E)) unit :=
  if byte_is b 0 then ret tt
  else if byte_is b 1 then drawBlock (canvas this) x y (Some "black"%string)
  else if byte_is b 2 then drawBlock (canvas this) x y (Some "navy"%string)
  else if byte_is b 3 then drawBlock (canvas this) x y (Some "navy"%string)
  else if byte_is b 4 then drawBall (canvas this) x y (Some "red"%string)
  else ret tt.

(** The callback of [render]: [(byte, i) => { ... }]. *)
Definition render_cell (this : Game) (cols : Z) (b : byte) (i : nat)
  : M Host (event (Rust.move E)) unit :=
  let y := floor (div (of_nat i) (of_Z cols)) in
  let x := rem (of_nat i) (of_Z cols) in
  draw_cell this x y b.

Definition render (this : Game) : M Host (event (Rust.move E)) unit :=
  emit ERender ;;
  clear (canvas this) ;;
  drawBorder (canvas this) ;;
  score <- gets (fun h => Rust.score E (game h)) ;;
  drawScore (canvas this) (of_Z score) ;;
  buffer <- gets (fun h => Rust.memory_buffer E (game h)) ;;
  byteOffset <- gets (fun h => Rust.display E (game h)) ;;
  len <- gets (fun h => Rust.display_len E (game h)) ;;
  display <- new_view buffer byteOffset len ;;
  cols <- gets (fun h => Rust.cols E (game h)) ;;
  forEach display (render_cell this cols).

Definition run (this : Game) : M Host (event (Rust.move E)) unit :=
  next_move <- game_step ;;
  match next_move with
  | Some m =>
      render this ;;
      game_input m ;;
      setTimeout 3
  | None => ret tt
  end.

(** The browser's loop: while a timer waits, it fires and [run] is
    called.  [fuel] bounds the number of timers that fire. *)
Fixpoint event_loop (this : Game) (fuel : nat) : M Host (event (Rust.move E)) unit :=
  match fuel with
  | O => ret tt
  | Datatypes.S fuel' =>
      fun h =>
        match timers h with
        | [] => (Ok tt, h, [])
        | _ :: waiting =>
            (uncaught EUncaught (run this) ;; event_loop this fuel')
              {| game := game h; timers := waiting |}
        end
  end.

(** [game.run()], as the page calls it on a new game, followed by the
    loop. *)
Definition start (this : Game) (fuel : nat) : M Host (event (Rust.move E)) unit :=
  uncaught EUncaught (run this) ;;
  event_loop this fuel.

End Game.
Arguments game {E} _.
Arguments timers {E} _.

(** ** The protocol between the loop and the engine *)

(** The three operations of a cycle, as they show in a trace. *)
Inductive phase (move : Type) : Type :=
| Decide (r : option move)
| Render
| Commit (m : move).
Arguments Decide {move} r.
Arguments Render {move}.
Arguments Commit {move} m.

Definition phase_of {move : Type} (ev : event move) : list (phase move) :=
  match ev with
  | EStep r => [Decide r]
  | ERender => [Render]
  | EInput m => [Commit m]
  | _ => []
  end.

Definition protocol {move : Type} (t : list (event move)) : list (phase move) :=
  flat_map phase_of t.

(** The sequences of operations of a loop that goes cycle by cycle: full
    cycles, in which a move is decided, the frame rendered and that move
    committed, ended by the cycle in which no move is decided, or by a
    cycle whose rendering failed, or not yet ended. *)
Inductive cycles {move : Type} : list (phase move) -> Prop :=
| cycles_running : cycles []
| cycles_stopped : cycles [Decide None]
| cycles_failed (m : move) : cycles [Decide (Some m); Render]
| cycles_cycle (m : move) (rest : list (phase move)) :
    cycles rest -> cycles (Decide (Some m) :: Render :: Commit m :: rest).

Definition is_render {move : Type} (p : phase move) : bool :=
  match p with
  | Render => true
  | _ => false
  end.

Definition is_commit {move : Type} (p : phase move) : bool :=
  match p with
  | Commit _ => true
  | _ => false
  end.

(** ** An engine to run the page on

    A grid of the given size whose frame, the bytes [frame], lies at
    address 8 of the memory; it decides [moves] moves (the move number
    [n] is [n]) and then none.  Its state is the number of moves
    committed. *)
Module Stub.

Definition engine (cols rows score : Z) (frame : list byte) (moves : nat)
  : Rust.Engine := {|
  Rust.state := nat;
  Rust.move := nat;
  Rust.cols := fun _ => cols;
  Rust.rows := fun _ => rows;
  Rust.score := fun n => (score + Z.of_nat n)%Z;
  Rust.display := fun _ => 8%Z;
  Rust.display_len := fun _ => Z.of_nat (List.length frame);
  Rust.memory_buffer := fun _ => repeat x00 8 ++ frame ++ repeat xff 4;
  Rust.step := fun n => (if Nat.ltb n moves then Some n else None, n);
  Rust.input := fun _ n => Datatypes.S n
|}.

(** The engine of a grid of two columns and one row, an empty cell and a
    target, with the score 42, that decides one move. *)
Definition two_cells : Rust.Engine := engine 2 1 42 [x00; x04] 1.

Definition can : HTMLCanvas := {| can_width := 200; can_height := 100 |}.

Definition page (E : Rust.Engine) (g0 : Rust.state E) : Game :=
  Game_new E can g0.

Definition host (E : Rust.Engine) (g0 : Rust.state E) : Host E :=
  {| game := g0; timers := [] |}.

Definition canvas : Canvas := Canvas_new can 2 1.

End Stub.

(** ** Vocabulary of the properties *)

(** The cell kinds the decoder knows: the bytes 0 to 4. *)
Definition byte_known (b : byte) : bool := N.leb (Byte.to_N b) 4.

(** The coordinates of a cell of the grid of the canvas. *)
Definition in_grid (this : Canvas) (x y : num) : Prop :=
  exists c r : Z,
    x = of_Z c /\ y = of_Z r /\
    (0 <= c < cols this)%Z /\ (0 <= r < rows this)%Z.

(** A call of [drawBlock] or of [drawBall] names a cell of the grid. *)
Definition call_in_grid {move : Type} (this : Canvas) (ev : event move) : Prop :=
  match ev with
  | ECanvas (DrawBlock x y _) | ECanvas (DrawBall x y _) => in_grid this x y
  | _ => True
  end.

Definition is_view {move : Type} (ev : event move) : bool :=
  match ev with
  | EView _ _ => true
  | _ => false
  end.

Definition is_render_entry {move : Type} (ev : event move) : bool :=
  match ev with
  | ERender => true
  | _ => false
  end.

Definition is_score_call {move : Type} (ev : event move) : bool :=
  match ev with
  | ECanvas (DrawScore _) | ECtx (fillText _ _ _) => true
  | _ => false
  end.

(** An execution that leaves a mark: an event in the trace, or an
    exception. *)
Definition marked {S Ev A : Type} (out : result A * S * list Ev) : Prop :=
  snd out <> [] \/ is_ok (fst (fst out)) = false.

(** What [render] does before it reads the frame: it erases the surface,
    strokes the border and writes the score. *)
Definition prelude {move : Type} (this : Canvas) (score : Z) : list (event move) :=
  [ERender;
   ECanvas Clear;
   ECtx (clearRect (of_Z 0) (of_Z 0) (of_Z (width this)) (of_Z (height this)));
   ECanvas DrawBorder;
   ECtx (set_globalCompositeOperation "source-over");
   ECtx (set_lineWidth (of_Z 5));
   ECtx (set_strokeStyle "#000000");
   ECtx (strokeRect (of_Z 0) (of_Z 0) (of_Z (width this)) (of_Z (height this)));
   ECanvas (DrawScore (of_Z score));
   ECtx (set_font "25px Arial");
   ECtx (set_fillStyle "0,0,0");
   ECtx (fillText (of_Z score)
           (mul (sub (of_Z (cols this)) (of_Z 3)) (colWidth this))
           (mul one_point_75 (rowHeight this)))].

(** The events of the drawing of one cell: a call of [drawBlock] or of
    [drawBall] and the path and fill operations it makes. *)
Definition is_cell_event {move : Type} (ev : event move) : bool :=
  match ev with
  | ECanvas (DrawBlock _ _ _) | ECanvas (DrawBall _ _ _) => true
  | ECtx beginPath | ECtx (rect _ _ _ _) | ECtx (arc _ _ _ _ _ _)
  | ECtx (set_fillStyle _) | ECtx fill => true
  | _ => false
  end.
(** ** The component

    [App] chooses the pixel size of the canvas element: the two properties
    [width] and [height] of [props] when both are truthy, the inner size of
    the window otherwise.  A property of [props] is any value; the values
    that matter to the test are modelled: [undefined], a number, a
    string. *)
Inductive jsval : Type :=
| JUndefined
| JNumber (n : num)
| JString (s : string).

(** The truthiness of a value: [undefined], zero, [NaN] and the empty
    string are falsy. *)
Definition truthy (v : jsval) : bool :=
  match v with
  | JUndefined => false
  | JNumber (Fin q) => negb (Z.eqb (Qnum q) 0)
  | JNumber NaN => false
  | JNumber _ => true
  | JString s => negb (String.eqb s "")
  end.

Record Props : Type := {
  props_width : jsval;
  props_height : jsval
}.

(** The first lines of [App]: the size given to the canvas element, for
    the inner size of the window and the [props] (which may be missing). *)
Definition App_size (innerWidth innerHeight : num) (props : option Props)
  : jsval * jsval :=
  let width := JNumber innerWidth in
  let height := JNumber innerHeight in
  match props with
  | Some p =>
      if truthy (props_width p) && truthy (props_height p)
      then (props_width p, props_height p)
      else (width, height)
  | None => (width, height)
  end.

(** ** More vocabulary *)

(** The operations on the drawing context of a trace, in order. *)
Definition ctx_ops {move : Type} (t : list (event move)) : list ctx_op :=
  flat_map (fun ev => match ev with ECtx o => [o] | _ => [] end) t.

(** The method calls on the canvas of a trace, in order. *)
Definition canvas_calls {move : Type} (t : list (event move)) : list canvas_call :=
  flat_map (fun ev => match ev with ECanvas c => [c] | _ => [] end) t.

Definition is_uncaught {move : Type} (ev : event move) : bool :=
  match ev with
  | EUncaught _ => true
  | _ => false
  end.

Definition is_input {move : Type} (ev : event move) : bool :=
  match ev with
  | EInput _ => true
  | _ => false
  end.

Definition is_timeout {move : Type} (ev : event move) : bool :=
  match ev with
  | ESetTimeout _ => true
  | _ => false
  end.

(** A number that is neither an infinity nor [NaN]. *)
Definition finite (a : num) : bool :=
  match a with
  | Fin _ => true
  | _ => false
  end.

(** The drawing call of the cell of index [i] of a frame of [cols]
    columns, for the byte [b] of the cell: none for an empty cell or an
    unknown byte. *)
Definition cell_call (cols : Z) (i : nat) (b : byte) : list canvas_call :=
  let x := of_Z (Z.rem (Z.of_nat i) cols) in
  let y := of_Z (Z.of_nat i / cols) in
  if byte_is b 1 then [DrawBlock x y (Some "black"%string)]
  else if byte_is b 2 || byte_is b 3 then [DrawBlock x y (Some "navy"%string)]
  else if byte_is b 4 then [DrawBall x y (Some "red"%string)]
  else [].

(** The drawing calls of the cells of a frame, from the index [i] on. *)
Fixpoint cell_calls_from (cols : Z) (i : nat) (view : list byte)
  : list canvas_call :=
  match view with
  | [] => []
  | b :: rest => cell_call cols i b ++ cell_calls_from cols (Datatypes.S i) rest
  end.

(** A byte for which [render] makes a drawing call: 1, 2, 3 or 4. *)
Definition byte_draws (b : byte) : bool :=
  byte_is b 1 || byte_is b 2 || byte_is b 3 || byte_is b 4.

(** The events of [run] itself, which no method of the canvas makes. *)
Definition is_driver_event {move : Type} (ev : event move) : bool :=
  match ev with
  | EStep _ | EInput _ | ESetTimeout _ | EUncaught _ => true
  | _ => false
  end.

(** A call of [step] that returned a move. *)
Definition is_move_decided {move : Type} (ev : event move) : bool :=
  match ev with
  | EStep (Some _) => true
  | _ => false
  end.

(** The frame of the engine state [g] fits the canvas of the game: the
    window the engine names lies in the memory and has [cols * rows]
    bytes, for the dimensions the canvas was built with, and [cols] is
    not negative. *)
Definition frame_fits (E : Rust.Engine) (this : Game) (g : Rust.state E) : Prop :=
  exists view,
    Uint8Array_new (Rust.memory_buffer E g) (Rust.display E g)
      (Rust.display_len E g) = Ok view /\
    Z.of_nat (List.length view) = (Rust.cols E g * Rust.rows E g)%Z /\
    cols (canvas this) = Rust.cols E g /\
    rows (canvas this) = Rust.rows E g /\
    (0 <= Rust.cols E g)%Z.

(** An engine that names a window of 100 bytes in a memory of 16. *)
Definition engine_outside_memory : Rust.Engine := {|
  Rust.state := nat;
  Rust.move := nat;
  Rust.cols := fun _ => 10%Z;
  Rust.rows := fun _ => 10%Z;
  Rust.score := fun _ => 0%Z;
  Rust.display := fun _ => 8%Z;
  Rust.display_len := fun _ => 100%Z;
  Rust.memory_buffer := fun _ => repeat x00 16;
  Rust.step := fun n => (Some n, n);
  Rust.input := fun _ n => Datatypes.S n
|}.

(** An engine of a grid of two columns and one row whose frame has six
    bytes: the cell of index 4 is in the row 2. *)
Definition engine_long_frame : Rust.Engine :=
  Stub.engine 2 1 42 [x01; x00; x00; x00; x01; x01] 1.

(** The state of the engine after [n] cycles of the loop, each a [step]
    that decides a move followed by the [input] of that move; there is
    none when a [step] decides no move before. *)
Fixpoint after_cycles (E : Rust.Engine) (n : nat) (g : Rust.state E)
  : option (Rust.state E) :=
  match n with
  | O => Some g
  | Datatypes.S n' =>
      match Rust.step E g with
      | (Some m, g1) => after_cycles E n' (Rust.input E m g1)
      | (None, _) => None
      end
  end.

(** The bytes of [buffer] at the addresses [byteOffset], ...,
    [byteOffset + len - 1], read one by one. *)
Definition window (buffer : list byte) (byteOffset len : Z) : list byte :=
  map (fun i => nth (Z.to_nat byteOffset + i) buffer x00) (seq 0 (Z.to_nat len)).


(** * Properties *)

(** ** Integers as JavaScript numbers

    On integers the operations of the program are those of [Z]: the floor
    of a quotient is [Z.div], the remainder is [Z.rem], the comparisons are
    the comparisons of [Z]. *)
Section IntegerNumbers.
Local Open Scope Q_scope.

Lemma Qred_inject_Z (z : Z) : Qred (inject_Z z) = inject_Z z.
Proof.
  apply Qred_identity. simpl. apply Z.gcd_1_r.
Qed.

Lemma fin_inject (q : Q) (z : Z) : q == inject_Z z -> fin q = of_Z z.
Proof.
  intros H. unfold fin, of_Z. f_equal.
  rewrite (Qred_complete _ _ H). apply Qred_inject_Z.
Qed.

Lemma sgn_inject_Z (z : Z) : sgn (inject_Z z) = (z ?= 0)%Z.
Proof. reflexivity. Qed.

Lemma Qtrunc_quot (a b : Z) : b <> 0%Z -> Qtrunc (inject_Z a / inject_Z b) = Z.quot a b.
Proof.
  intros Hb. unfold Qtrunc, Qle_bool, Qceiling, Qfloor, Qdiv, Qinv, Qmult, Qopp, inject_Z.
  destruct b as [|p|p]; [congruence| |]; cbn [Qnum Qden].
  - rewrite !Z.mul_1_r, Pos.mul_1_l, Z.mul_0_l.
    destruct (Z.leb_spec 0 a).
    + symmetry. apply Z.quot_div_nonneg; lia.
    + rewrite <- (Z.opp_involutive a) at 2. rewrite Z.quot_opp_l by lia.
      rewrite Z.quot_div_nonneg by lia. reflexivity.
  - rewrite Z.mul_1_r, Pos.mul_1_l, Z.mul_0_l.
    change (Z.neg p) with (- Z.pos p)%Z.
    replace (a * -1)%Z with (- a)%Z by lia.
    rewrite Z.quot_opp_r by lia.
    destruct (Z.leb_spec 0 (- a)).
    + rewrite <- (Z.opp_involutive a) at 2. rewrite Z.quot_opp_l by lia.
      rewrite Z.opp_involutive. symmetry. apply Z.quot_div_nonneg; lia.
    + rewrite Z.opp_involutive. rewrite Z.quot_div_nonneg by lia. reflexivity.
Qed.

Lemma floor_div_int (i c : Z) : c <> 0%Z ->
  floor (div (of_Z i) (of_Z c)) = of_Z (i / c).
Proof.
  intros Hc. unfold div, of_Z. rewrite sgn_inject_Z.
  assert (E : floor (fin (inject_Z i / inject_Z c)) = Fin (inject_Z (i / c))).
  { unfold floor, fin, of_Z. rewrite (Qfloor_comp _ _ (Qred_correct _)).
    rewrite <- Zdiv_Qdiv. reflexivity. }
  destruct (Z.compare_spec c 0); [congruence | exact E | exact E].
Qed.

Lemma rem_int (i c : Z) : c <> 0%Z ->
  rem (of_Z i) (of_Z c) = of_Z (Z.rem i c).
Proof.
  intros Hc. unfold rem, of_Z. rewrite sgn_inject_Z.
  assert (E : fin (inject_Z i - inject_Z c * inject_Z (Qtrunc (inject_Z i / inject_Z c)))
              = Fin (inject_Z (Z.rem i c))).
  { apply fin_inject. rewrite Qtrunc_quot by assumption.
    unfold Qminus. rewrite <- inject_Z_mult, <- inject_Z_opp, <- inject_Z_plus.
    apply inject_Z_injective. pose proof (Z.quot_rem' i c). lia. }
  destruct (Z.compare_spec c 0); [congruence | exact E | exact E].
Qed.

Lemma gtb_int (a b : Z) : gtb (of_Z a) (of_Z b) = (b <? a)%Z.
Proof.
  unfold gtb, of_Z, Qle_bool, inject_Z; cbn [Qnum Qden].
  rewrite !Z.mul_1_r. destruct (Z.leb_spec a b), (Z.ltb_spec b a); simpl; lia || reflexivity.
Qed.

Lemma leb_gtb (a b : num) : leb a b = true -> gtb a b = false.
Proof.
  destruct a, b; simpl; try congruence. intros ->. reflexivity.
Qed.


End IntegerNumbers.

(** ** Sequencing and iteration *)
Section MonadFacts.
Context {S Ev : Type}.

Lemma bind_assoc {A B C : Type} (m : M S Ev A) (k : A -> M S Ev B)
  (k' : B -> M S Ev C) (s : S) :
  bind (bind m k) k' s = bind m (fun a => bind (k a) k') s.
Proof.
  unfold bind. destruct (m s) as [[[a|e] s1] t1]; [|reflexivity].
  destruct (k a s1) as [[[b|e] s2] t2]; [|reflexivity].
  destruct (k' b s2) as [[r s3] t3]. rewrite app_assoc. reflexivity.
Qed.

Lemma bind_ext {A B : Type} (m : M S Ev A) (k k' : A -> M S Ev B) (s : S) :
  (forall a s', k a s' = k' a s') -> bind m k s = bind m k' s.
Proof.
  intros H. unfold bind. destruct (m s) as [[[a|e] s1] t1]; [|reflexivity].
  rewrite H. reflexivity.
Qed.

Lemma forEach_from_app (f : byte -> nat -> M S Ev unit) (v1 v2 : list byte)
  (k : nat) (s : S) :
  forEach_from k (v1 ++ v2) f s =
  (forEach_from k v1 f ;; forEach_from (k + List.length v1) v2 f) s.
Proof.
  revert k s. induction v1 as [|b v1 IH]; intros k s.
  - simpl. rewrite Nat.add_0_r. unfold bind, ret.
    destruct (forEach_from k v2 f s) as [[r s'] t]. reflexivity.
  - simpl. rewrite bind_assoc. apply bind_ext. intros _ s'.
    rewrite IH, Nat.add_succ_comm. reflexivity.
Qed.

(** A callback that succeeds on every element of the view and leaves the
    state as it is makes the iteration succeed; what holds of the events
    of every call holds of the events of the iteration. *)
Lemma forEach_from_all_ok (P : Ev -> Prop) (f : byte -> nat -> M S Ev unit)
  (view : list byte) (k : nat) (s : S) :
  (forall j b, nth_error view j = Some b ->
     outcome (f b (k + j)) s = Ok tt /\ final (f b (k + j)) s = s /\
     Forall P (trace (f b (k + j)) s)) ->
  outcome (forEach_from k view f) s = Ok tt /\
  final (forEach_from k view f) s = s /\
  Forall P (trace (forEach_from k view f) s).
Proof.
  revert k. induction view as [|b view IH]; intros k H.
  - repeat split. constructor.
  - destruct (H 0%nat b eq_refl) as (Ho & Hf & Ht).
    rewrite Nat.add_0_r in Ho, Hf, Ht.
    assert (IH' := IH (Datatypes.S k)).
    destruct IH' as (Io & If & It).
    { intros j b' Hj. rewrite Nat.add_succ_comm. apply (H (Datatypes.S j) b' Hj). }
    unfold outcome, final, trace in *. simpl. unfold bind.
    destruct (f b k s) as [[r s1] t1]. simpl in Ho, Hf, Ht. subst r s1.
    destruct (forEach_from (Datatypes.S k) view f s) as [[r s2] t2].
    simpl in *. subst. repeat split. apply Forall_app. split; assumption.
Qed.

(** Whatever the callback does, what holds of the events of every call
    holds of the events of the iteration. *)
Lemma forEach_from_trace (P : Ev -> Prop) (f : byte -> nat -> M S Ev unit)
  (view : list byte) (k : nat) (s : S) :
  (forall b i s', Forall P (trace (f b i) s')) ->
  Forall P (trace (forEach_from k view f) s).
Proof.
  intros H. revert k s. induction view as [|b view IH]; intros k s.
  - constructor.
  - unfold trace. simpl. unfold bind.
    specialize (H b k s). unfold trace in H.
    destruct (f b k s) as [[[[]|e] s1] t1]; simpl in *; [|assumption].
    specialize (IH (Datatypes.S k) s1). unfold trace in IH.
    destruct (forEach_from (Datatypes.S k) view f s1) as [[r s2] t2].
    simpl in *. apply Forall_app. split; assumption.
Qed.

(** A callback that leaves the state as it is leaves it so over the whole
    iteration, also when a call throws. *)
Lemma forEach_from_final (f : byte -> nat -> M S Ev unit)
  (view : list byte) (k : nat) (s : S) :
  (forall b i s', final (f b i) s' = s') ->
  final (forEach_from k view f) s = s.
Proof.
  intros H. revert k. induction view as [|b view IH]; intros k.
  - reflexivity.
  - unfold final. simpl. unfold bind.
    specialize (H b k s). unfold final in H.
    destruct (f b k s) as [[[[]|e] s1] t1]; simpl in *; [|assumption].
    subst s1. specialize (IH (Datatypes.S k)). unfold final in IH.
    destruct (forEach_from (Datatypes.S k) view f s) as [[r s2] t2].
    simpl in *. assumption.
Qed.
Lemma uncaught_trace {A : Type} (report : exn -> Ev) (m : M S Ev A) (s : S) :
  trace (uncaught report m) s =
  trace m s ++ match outcome m s with
               | Ok _ => []
               | Throw e => [report e]
               end.
Proof.
  unfold trace, outcome, uncaught.
  destruct (m s) as [[[a|e] s1] t]; simpl; [rewrite app_nil_r|]; reflexivity.
Qed.

Lemma uncaught_final {A : Type} (report : exn -> Ev) (m : M S Ev A) (s : S) :
  final (uncaught report m) s = final m s.
Proof.
  unfold final, uncaught. destruct (m s) as [[[a|e] s1] t]; reflexivity.
Qed.

End MonadFacts.

(** ** Signs *)
Section Signs.
Local Open Scope Q_scope.


End Signs.

(** ** The drawing methods of the canvas *)
Section CanvasFacts.
Context {S move : Type}.
Variable this : Canvas.

Lemma clear_run (s : S) :
  clear (move:=move) this s =
  (Ok tt, s,
   [ECanvas Clear;
    ECtx (clearRect (of_Z 0) (of_Z 0) (of_Z (width this)) (of_Z (height this)))]).
Proof. reflexivity. Qed.

Lemma drawBorder_run (s : S) :
  drawBorder (move:=move) this s =
  (Ok tt, s,
   [ECanvas DrawBorder;
    ECtx (set_globalCompositeOperation "source-over");
    ECtx (set_lineWidth (of_Z 5));
    ECtx (set_strokeStyle "#000000");
    ECtx (strokeRect (of_Z 0) (of_Z 0) (of_Z (width this)) (of_Z (height this)))]).
Proof. reflexivity. Qed.

Lemma drawScore_run (score : num) (s : S) :
  drawScore (move:=move) this score s =
  (Ok tt, s,
   [ECanvas (DrawScore score);
    ECtx (set_font "25px Arial");
    ECtx (set_fillStyle "0,0,0");
    ECtx (fillText score
            (mul (sub (of_Z (cols this)) (of_Z 3)) (colWidth this))
            (mul one_point_75 (rowHeight this)))]).
Proof. reflexivity. Qed.

Lemma drawBlock_run (x y : num) (color : option string) (s : S) :
  drawBlock (move:=move) this x y color s =
  if gtb x (of_Z (cols this)) || gtb y (of_Z (rows this))
  then (Throw (OutOfBounds x y), s, [ECanvas (DrawBlock x y color)])
  else (Ok tt, s,
        [ECanvas (DrawBlock x y color);
         ECtx beginPath;
         ECtx (rect (mul (colWidth this) x) (mul (rowHeight this) y)
                 (colWidth this) (rowHeight this));
         ECtx (set_fillStyle (color_or_navy color));
         ECtx fill]).
Proof.
  unfold drawBlock, bind, emit, ctx, throw.
  destruct (gtb x _ || gtb y _); reflexivity.
Qed.

Lemma drawBall_run (x y : num) (color : option string) (s : S) :
  drawBall (move:=move) this x y color s =
  if gtb x (of_Z (cols this)) || gtb y (of_Z (rows this))
  then (Throw (OutOfBounds x y), s, [ECanvas (DrawBall x y color)])
  else (Ok tt, s,
        [ECanvas (DrawBall x y color);
         ECtx beginPath;
         ECtx (arc (mul (colWidth this) (add x half))
                 (mul (rowHeight this) (add y half))
                 (div (rowHeight this) (of_Z 2)) (of_Z 0)
                 (mul (of_Z 2) Math_PI) false);
         ECtx (set_fillStyle (color_or_navy color));
         ECtx fill]).
Proof.
  unfold drawBall, bind, emit, ctx, throw.
  destruct (gtb x _ || gtb y _); reflexivity.
Qed.

(** C2: [drawBlock] and [drawBall] do not throw at coordinates with
    [col <= cols] and [row <= rows], and throw the out-of-bounds error at
    coordinates with [col > cols] or [row > rows]; the test is a strict
    [>], so that drawing at the index [cols], [rows] itself is allowed. *)
Theorem draw_throws_iff_beyond (x y : num) (color : option string) (s : S) :
  (leb x (of_Z (cols this)) = true -> leb y (of_Z (rows this)) = true ->
   outcome (drawBlock (move:=move) this x y color) s = Ok tt /\
   outcome (drawBall (move:=move) this x y color) s = Ok tt) /\
  (gtb x (of_Z (cols this)) = true \/ gtb y (of_Z (rows this)) = true ->
   outcome (drawBlock (move:=move) this x y color) s = Throw (OutOfBounds x y) /\
   outcome (drawBall (move:=move) this x y color) s = Throw (OutOfBounds x y)) /\
  (outcome (drawBlock (move:=move) this
              (of_Z (cols this)) (of_Z (rows this)) color) s = Ok tt /\
   outcome (drawBall (move:=move) this
              (of_Z (cols this)) (of_Z (rows this)) color) s = Ok tt).
Proof.
  unfold outcome. rewrite !drawBlock_run, !drawBall_run.
  split; [|split].
  - intros Hx Hy. rewrite (leb_gtb _ _ Hx), (leb_gtb _ _ Hy). split; reflexivity.
  - intros H.
    assert (E : gtb x (of_Z (cols this)) || gtb y (of_Z (rows this)) = true).
    { apply orb_true_iff. exact H. }
    rewrite E. split; reflexivity.
  - rewrite !gtb_int, !Z.ltb_irrefl. split; reflexivity.
Qed.


End CanvasFacts.

Lemma draw_throws_iff_beyond_witness :
  outcome (drawBlock (move:=unit) Stub.canvas (of_Z 2) (of_Z 1) None) tt = Ok tt /\
  outcome (drawBall (move:=unit) Stub.canvas (of_Z 3) (of_Z 0) None) tt
  = Throw (OutOfBounds (of_Z 3) (of_Z 0)).
Proof.
  split.
  - apply (draw_throws_iff_beyond (move:=unit) Stub.canvas
             (of_Z 2) (of_Z 1) None tt); reflexivity.
  - apply (draw_throws_iff_beyond (move:=unit) Stub.canvas
             (of_Z 3) (of_Z 0) None tt).
    left. reflexivity.
Defined.



(** ** Sequences of cycles *)
Section CycleFacts.
Context {move : Type}.

(** A sequence of cycles that is not empty begins with a decision. *)
Lemma cycles_head (p : list (phase move)) :
  cycles p -> p = [] \/ exists r tl, p = Decide r :: tl.
Proof.
  destruct 1; [left; reflexivity | right; eauto ..].
Qed.

(** In a sequence of cycles, between two renderings and between two
    commits there is a decision. *)
Lemma cycles_spaced (p : list (phase move)) :
  cycles p ->
  forall a x b y c,
    p = a ++ x :: b ++ y :: c ->
    (is_render x = true /\ is_render y = true) \/
    (is_commit x = true /\ is_commit y = true) ->
    exists r, In (Decide r) b.
Proof.
  induction 1 as [| | m | m rest Hrest IH]; intros a x b y c Hp Hk.
  - destruct a; discriminate Hp.
  - destruct a as [|? [|? ?]]; try discriminate Hp.
    injection Hp as _ Hp. destruct b; discriminate Hp.
  - destruct a as [|? [|? [|? ?]]]; try discriminate Hp.
    + injection Hp as <- _. destruct Hk as [[Hk _]|[Hk _]]; discriminate Hk.
    + injection Hp as _ _ Hp. destruct b; discriminate Hp.
  - assert (Hb : forall b' c', rest = b' ++ y :: c' -> exists r, In (Decide r) b').
    { intros b' c' Hr. destruct (cycles_head _ Hrest) as [->|(r & tl & ->)].
      - destruct b'; discriminate Hr.
      - destruct b' as [|z b'].
        + injection Hr as <- _. destruct Hk as [[_ Hk]|[_ Hk]]; discriminate Hk.
        + injection Hr as <- _. exists r. left. reflexivity. }
    destruct a as [|a0 [|a1 [|a2 a]]]; simpl in Hp.
    + injection Hp as <- _. destruct Hk as [[Hk _]|[Hk _]]; discriminate Hk.
    + injection Hp as _ <- Hp.
      destruct b as [|z b]; simpl in Hp.
      * injection Hp as <- _. destruct Hk as [[_ Hk]|[Hk _]]; discriminate Hk.
      * injection Hp as <- Hp. destruct (Hb b c Hp) as [r Hr].
        exists r. right. exact Hr.
    + injection Hp as _ _ <- Hp. apply (Hb b c Hp).
    + injection Hp as _ _ _ Hp. apply (IH a x b y c Hp Hk).
Qed.

End CycleFacts.


(** ** The game *)

(** Splits the chain of tests of [draw_cell] on the byte [b]. *)
Ltac byte_cases b :=
  repeat match goal with
         | |- context [if byte_is b ?n then _ else _] => destruct (byte_is b n)
         end.

Section GameFacts.
Variable E : Rust.Engine.
Variable this : Game.

Lemma render_run (h : Host E) :
  render E this h =
  match Uint8Array_new (Rust.memory_buffer E (game h))
          (Rust.display E (game h)) (Rust.display_len E (game h)) with
  | Ok view =>
      match forEach view (render_cell E this (Rust.cols E (game h))) h with
      | (r, h', t) =>
          (r, h',
           prelude (canvas this) (Rust.score E (game h))
           ++ EView (Rust.display E (game h)) (Rust.display_len E (game h)) :: t)
      end
  | Throw e =>
      (Throw e, h,
       prelude (canvas this) (Rust.score E (game h))
       ++ [EView (Rust.display E (game h)) (Rust.display_len E (game h))])
  end.
Proof.
  cbv [render new_view bind gets emit clear drawBorder drawScore ctx
         ret throw prelude app].
  destruct (Uint8Array_new _ _ _) as [view|e]; [|reflexivity].
  destruct (forEach view _ h) as [[r h'] t]. reflexivity.
Qed.

Lemma run_run (h : Host E) :
  run E this h =
  match Rust.step E (game h) with
  | (Some m, g1) =>
      match render E this {| game := g1; timers := timers h |} with
      | (Ok _, h2, t) =>
          (Ok tt,
           {| game := Rust.input E m (game h2); timers := timers h2 ++ [3%Z] |},
           EStep (Some m) :: t ++ [EInput m; ESetTimeout 3])
      | (Throw e, h2, t) => (Throw e, h2, EStep (Some m) :: t)
      end
  | (None, g1) => (Ok tt, {| game := g1; timers := timers h |}, [EStep None])
  end.
Proof.
  cbv [run bind game_step game_input setTimeout ret].
  destruct (Rust.step E (game h)) as [[m|] g1]; [|reflexivity].
  cbv [app game timers].
  destruct (render E this _) as [[[[]|e] h2] t]; reflexivity.
Qed.

(** *** One cell *)

Lemma draw_cell_final (x y : num) (b : byte) (h : Host E) :
  final (draw_cell E this x y b) h = h.
Proof.
  unfold final, draw_cell.
  byte_cases b;
    rewrite ?drawBlock_run, ?drawBall_run; try reflexivity;
    destruct (gtb x _ || gtb y _); reflexivity.
Qed.

Lemma draw_cell_events (x y : num) (b : byte) (h : Host E) :
  Forall (fun ev => is_cell_event ev = true) (trace (draw_cell E this x y b) h).
Proof.
  unfold trace, draw_cell.
  byte_cases b;
    rewrite ?drawBlock_run, ?drawBall_run; try (constructor; fail);
    destruct (gtb x _ || gtb y _); repeat constructor.
Qed.

(** At the coordinates of a cell of the grid the drawing succeeds and its
    calls name that cell. *)
Lemma draw_cell_in_grid (x y : num) (b : byte) (h : Host E) :
  in_grid (canvas this) x y ->
  outcome (draw_cell E this x y b) h = Ok tt /\
  Forall (call_in_grid (canvas this)) (trace (draw_cell E this x y b) h).
Proof.
  intros Hg. assert (Hg' := Hg). destruct Hg' as (c & r & -> & -> & Hc & Hr).
  assert (T : gtb (of_Z c) (of_Z (cols (canvas this)))
              || gtb (of_Z r) (of_Z (rows (canvas this))) = false).
  { rewrite !gtb_int. apply orb_false_iff. split; apply Z.ltb_ge; lia. }
  unfold outcome, trace, draw_cell.
  byte_cases b;
    rewrite ?drawBlock_run, ?drawBall_run, ?T; simpl;
    (split; [reflexivity | repeat constructor; assumption]).
Qed.

Lemma unknown_byte_is (b : byte) (n : N) :
  byte_known b = false -> (n <= 4)%N -> byte_is b n = false.
Proof.
  unfold byte_known, byte_is. intros H Hn.
  apply N.leb_gt in H. apply N.eqb_neq. lia.
Qed.

(** The coordinates of the cell of index [i], when there are columns. *)
Lemma render_cell_coordinates (cols : Z) (b : byte) (i : nat) :
  cols <> 0%Z ->
  render_cell E this cols b i =
  draw_cell E this (of_Z (Z.rem (Z.of_nat i) cols)) (of_Z (Z.of_nat i / cols)) b.
Proof.
  intros Hc. unfold render_cell, of_nat.
  rewrite floor_div_int, rem_int by assumption. reflexivity.
Qed.

Lemma render_cell_final (cols : Z) (b : byte) (i : nat) (h : Host E) :
  final (render_cell E this cols b i) h = h.
Proof. apply draw_cell_final. Qed.

Lemma render_cell_events (cols : Z) (b : byte) (i : nat) (h : Host E) :
  Forall (fun ev => is_cell_event ev = true) (trace (render_cell E this cols b i) h).
Proof. apply draw_cell_events. Qed.

(** An index into a frame of [cols * rows] cells is the index of a cell of
    the grid. *)
Lemma index_in_grid (cols rows : Z) (n i : nat) :
  (0 <= cols)%Z -> Z.of_nat n = (cols * rows)%Z -> (i < n)%nat ->
  (0 < cols)%Z /\
  (0 <= Z.rem (Z.of_nat i) cols < cols)%Z /\
  (0 <= Z.of_nat i / cols < rows)%Z.
Proof.
  intros Hc Hn Hi.
  assert (Hpos : (0 < cols)%Z).
  { destruct (Z.eq_dec cols 0) as [->|]; lia. }
  split; [assumption|].
  rewrite Z.rem_mod_nonneg by lia.
  split; [apply Z.mod_pos_bound; assumption|].
  split; [apply Z.div_pos; lia|].
  apply Z.div_lt_upper_bound; lia.
Qed.

(** C4: in a frame of [cols * rows] bytes the decoder gives the cell of
    index [i] the row [i / cols], by integer division, and the column
    [i % cols]; with four columns and three rows the index 5 is the cell
    of column 1 and row 1. *)
Theorem cell_of_index (cols rows : Z) (view : list byte) (i : nat) (b : byte) :
  Z.of_nat (List.length view) = (cols * rows)%Z ->
  nth_error view i = Some b ->
  render_cell E this cols b i =
  draw_cell E this (of_Z (Z.rem (Z.of_nat i) cols)) (of_Z (Z.of_nat i / cols)) b /\
  ((0 < cols)%Z -> Z.rem (Z.of_nat i) cols = (Z.of_nat i mod cols)%Z) /\
  render_cell E this 4 b 5 = draw_cell E this (of_Z 1) (of_Z 1) b.
Proof.
  intros Hlen Hi.
  assert (Hlt : (i < List.length view)%nat).
  { apply nth_error_Some. congruence. }
  split; [|split].
  - apply render_cell_coordinates. intros ->. lia.
  - intros Hc. apply Z.rem_mod_nonneg; lia.
  - reflexivity.
Qed.

(** C5: the drawing of a cell is fixed by its byte: nothing for 0, a block
    in black for 1, a block in navy for 2 and for 3 alike, a ball in red
    for 4; the three colours differ, and each is the fill style the
    method sets. *)
Theorem cell_colors (x y : num) :
  draw_cell E this x y x00 = ret tt /\
  draw_cell E this x y x01 = drawBlock (canvas this) x y (Some "black"%string) /\
  draw_cell E this x y x02 = drawBlock (canvas this) x y (Some "navy"%string) /\
  draw_cell E this x y x03 = drawBlock (canvas this) x y (Some "navy"%string) /\
  draw_cell E this x y x04 = drawBall (canvas this) x y (Some "red"%string) /\
  (forall h : Host E, trace (draw_cell E this x y x00) h = []) /\
  (color_or_navy (Some "black"%string) = "black"%string /\
   color_or_navy (Some "navy"%string) = "navy"%string /\
   color_or_navy (Some "red"%string) = "red"%string) /\
  ("black"%string <> "navy"%string /\ "navy"%string <> "red"%string /\
   "black"%string <> "red"%string).
Proof.
  repeat split; discriminate.
Qed.

(** *** The frame *)

(** An unknown byte draws nothing and raises nothing. *)
Lemma draw_cell_unknown (x y : num) (b : byte) :
  byte_known b = false -> draw_cell E this x y b = ret tt.
Proof.
  intros H. unfold draw_cell.
  rewrite !(unknown_byte_is b _ H) by lia. reflexivity.
Qed.

(** C3, as amended: a byte outside 0..4 does not make the decoding throw
    and leaves no mark at all: its cell is passed over without an event
    and without an error, as an empty cell is, and the cells after it are
    decoded as they would be without it. *)
Theorem unknown_byte_skipped (cols : Z) (before after : list byte) (b : byte)
  (i : nat) (h : Host E) :
  byte_known b = false ->
  render_cell E this cols b i h = (Ok tt, h, []) /\
  forEach (before ++ b :: after) (render_cell E this cols) h =
  (forEach before (render_cell E this cols) ;;
   forEach_from (Datatypes.S (List.length before)) after (render_cell E this cols)) h /\
  forEach (before ++ b :: after) (render_cell E this cols) h =
  forEach (before ++ x00 :: after) (render_cell E this cols) h.
Proof.
  intros H.
  assert (Hb : forall j h', render_cell E this cols b j h' = (Ok tt, h', [])).
  { intros j h'. unfold render_cell. rewrite draw_cell_unknown by assumption.
    reflexivity. }
  assert (Hs : forall (c : byte) (k : nat) (s : Host E),
             (forall j h', render_cell E this cols c j h' = (Ok tt, h', [])) ->
             forEach_from k (c :: after) (render_cell E this cols) s =
             forEach_from (Datatypes.S k) after (render_cell E this cols) s).
  { intros c k s Hc. simpl. unfold bind. rewrite Hc.
    destruct (forEach_from _ after _ s) as [[r s'] t]. reflexivity. }
  split; [apply Hb|]. unfold forEach. split.
  - rewrite forEach_from_app. apply bind_ext. intros _ s'.
    apply Hs, Hb.
  - rewrite !forEach_from_app. apply bind_ext. intros _ s'.
    rewrite (Hs b), (Hs x00); [reflexivity | | exact Hb].
    intros j h'. reflexivity.
Qed.
Lemma render_final (h : Host E) : final (render E this) h = h.
Proof.
  unfold final. rewrite render_run.
  destruct (Uint8Array_new _ _ _) as [view|e]; [|reflexivity].
  assert (F := forEach_from_final (render_cell E this (Rust.cols E (game h)))
                 view 0 h (render_cell_final (Rust.cols E (game h)))).
  unfold final, forEach in *.
  destruct (forEach_from 0 view _ h) as [[r h'] t]. exact F.
Qed.

(** The events of the decoding of a frame are events of cells. *)
Lemma forEach_cells_events (cols : Z) (view : list byte) (h : Host E) :
  Forall (fun ev => is_cell_event ev = true)
    (trace (forEach view (render_cell E this cols)) h).
Proof.
  apply forEach_from_trace. intros b i s'. apply render_cell_events.
Qed.

Lemma filter_none {A : Type} (p : A -> bool) (l : list A) :
  Forall (fun a => p a = false) l -> filter p l = [].
Proof.
  induction 1 as [|a l Ha _ IH]; simpl; [reflexivity|].
  rewrite Ha. exact IH.
Qed.

(** The trace of [render]: the prelude, the construction of the view on
    the state of the moment, and the events of the cells of that view. *)
Lemma render_trace (h : Host E) :
  trace (render E this) h =
  prelude (canvas this) (Rust.score E (game h))
  ++ EView (Rust.display E (game h)) (Rust.display_len E (game h))
  :: match Uint8Array_new (Rust.memory_buffer E (game h))
             (Rust.display E (game h)) (Rust.display_len E (game h)) with
     | Ok view =>
         trace (forEach view (render_cell E this (Rust.cols E (game h)))) h
     | Throw _ => []
     end.
Proof.
  unfold trace. rewrite render_run.
  destruct (Uint8Array_new _ _ _) as [view|e]; [|reflexivity].
  destruct (forEach view _ h) as [[r h'] t]. reflexivity.
Qed.

Lemma render_cells_only (h : Host E) :
  exists t,
    trace (render E this) h =
    prelude (canvas this) (Rust.score E (game h))
    ++ EView (Rust.display E (game h)) (Rust.display_len E (game h)) :: t /\
    Forall (fun ev => is_cell_event ev = true) t.
Proof.
  rewrite render_trace.
  destruct (Uint8Array_new _ _ _) as [view|e].
  - eexists. split; [reflexivity|]. apply forEach_cells_events.
  - eexists. split; [reflexivity|]. constructor.
Qed.

(** C9: when the byte view has [cols * rows] bytes, every call of
    [drawBlock] and of [drawBall] that [render] makes names a column below
    [cols] and a row below [rows], no call is refused and [render] does
    not throw.  [cols] and [rows] are the dimensions of the engine, which
    the canvas was built with, and they are not negative. *)
Theorem render_stays_in_grid (h : Host E) (view : list byte) :
  Uint8Array_new (Rust.memory_buffer E (game h))
    (Rust.display E (game h)) (Rust.display_len E (game h)) = Ok view ->
  Z.of_nat (List.length view) = (Rust.cols E (game h) * Rust.rows E (game h))%Z ->
  cols (canvas this) = Rust.cols E (game h) ->
  rows (canvas this) = Rust.rows E (game h) ->
  (0 <= Rust.cols E (game h))%Z ->
  outcome (render E this) h = Ok tt /\
  Forall (call_in_grid (canvas this)) (trace (render E this) h).
Proof.
  intros Hview Hlen Hc Hr Hnn.
  assert (Hcell : forall j b, nth_error view j = Some b ->
            outcome (render_cell E this (Rust.cols E (game h)) b (0 + j)) h = Ok tt /\
            final (render_cell E this (Rust.cols E (game h)) b (0 + j)) h = h /\
            Forall (call_in_grid (canvas this))
              (trace (render_cell E this (Rust.cols E (game h)) b (0 + j)) h)).
  { intros j b Hj. simpl.
    assert (Hlt : (j < List.length view)%nat).
    { apply nth_error_Some. congruence. }
    destruct (index_in_grid _ _ _ j Hnn Hlen Hlt) as (Hpos & Hx & Hy).
    rewrite render_cell_coordinates by lia.
    assert (G : in_grid (canvas this)
                  (of_Z (Z.rem (Z.of_nat j) (Rust.cols E (game h))))
                  (of_Z (Z.of_nat j / Rust.cols E (game h)))).
    { eexists _, _. rewrite Hc, Hr. repeat split; lia. }
    destruct (draw_cell_in_grid _ _ b h G) as [Ho Ht].
    repeat split; try assumption. apply draw_cell_final. }
  destruct (forEach_from_all_ok _ _ view 0 h Hcell) as (Ho & _ & Ht).
  unfold outcome, trace in *. rewrite render_run, Hview. unfold forEach.
  destruct (forEach_from 0 view _ h) as [[r h'] t]. simpl in *.
  split; [assumption|]. repeat (constructor; [exact I|]). assumption.
Qed.

(** *** The cycle *)

Lemma protocol_app (t1 t2 : list (event (Rust.move E))) :
  protocol (t1 ++ t2) = protocol t1 ++ protocol t2.
Proof. apply flat_map_app. Qed.

Lemma protocol_cells (t : list (event (Rust.move E))) :
  Forall (fun ev => is_cell_event ev = true) t -> protocol t = [].
Proof.
  induction 1 as [|ev t Hev _ IH]; [reflexivity|].
  unfold protocol in *. simpl. rewrite IH.
  destruct ev as [| | | | c | o | |]; try discriminate Hev; reflexivity.
Qed.

(** Of the three operations [render] shows one, its own entry. *)
Lemma render_protocol (h : Host E) :
  protocol (trace (render E this) h) = [Render].
Proof.
  destruct (render_cells_only h) as (t & -> & Ht).
  rewrite protocol_app. change (EView ?a ?b :: t) with ([EView a b] ++ t).
  rewrite protocol_app, (protocol_cells t Ht). reflexivity.
Qed.

(** The trace of a cycle in which a move was decided: the decision, the
    rendering of the state the decision left, and, unless the rendering
    threw, the commit of that move and the timer of the next cycle. *)
Lemma run_trace (h : Host E) (m : Rust.move E) (g1 : Rust.state E) :
  Rust.step E (game h) = (Some m, g1) ->
  trace (run E this) h =
  EStep (Some m)
  :: trace (render E this) {| game := g1; timers := timers h |}
  ++ (if is_ok (outcome (render E this) {| game := g1; timers := timers h |})
      then [EInput m; ESetTimeout 3] else []).
Proof.
  intros Hstep. unfold trace, outcome. rewrite run_run, Hstep.
  destruct (render E this _) as [[[[]|e] h2] t]; simpl.
  - reflexivity.
  - rewrite app_nil_r. reflexivity.
Qed.

Lemma run_final (h : Host E) (m : Rust.move E) (g1 : Rust.state E) :
  Rust.step E (game h) = (Some m, g1) ->
  final (run E this) h =
  if is_ok (outcome (render E this) {| game := g1; timers := timers h |})
  then {| game := Rust.input E m g1; timers := timers h ++ [3%Z] |}
  else {| game := g1; timers := timers h |}.
Proof.
  intros Hstep. unfold final, outcome. rewrite run_run, Hstep.
  assert (F := render_final {| game := g1; timers := timers h |}).
  unfold final in F.
  destruct (render E this _) as [[[[]|e] h2] t]; simpl in *; subst h2; reflexivity.
Qed.

Lemma run_outcome (h : Host E) (m : Rust.move E) (g1 : Rust.state E) :
  Rust.step E (game h) = (Some m, g1) ->
  outcome (run E this) h =
  outcome (render E this) {| game := g1; timers := timers h |}.
Proof.
  intros Hstep. unfold outcome. rewrite run_run, Hstep.
  destruct (render E this _) as [[[[]|e] h2] t]; reflexivity.
Qed.

(** The cycle in which no move is decided. *)
Lemma run_no_move (h : Host E) (g1 : Rust.state E) :
  Rust.step E (game h) = (None, g1) ->
  run E this h = (Ok tt, {| game := g1; timers := timers h |}, [EStep None]).
Proof.
  intros Hstep. rewrite run_run, Hstep. reflexivity.
Qed.

(** With no timer waiting the loop has nothing to do. *)
Lemma event_loop_idle (fuel : nat) (h : Host E) :
  timers h = [] -> event_loop E this fuel h = (Ok tt, h, []).
Proof.
  intros Ht. destruct fuel; simpl; [reflexivity|]. rewrite Ht. reflexivity.
Qed.

(** One cycle followed by the loop: what [start] is, and what the loop is
    when a timer fires. *)
Lemma event_loop_fires (fuel : nat) (h : Host E) (ms : Z) (waiting : list Z) :
  timers h = ms :: waiting ->
  event_loop E this (Datatypes.S fuel) h =
  start E this fuel {| game := game h; timers := waiting |}.
Proof.
  intros Ht. simpl. rewrite Ht. reflexivity.
Qed.

Lemma start_trace (fuel : nat) (h : Host E) :
  trace (start E this fuel) h =
  trace (uncaught EUncaught (run E this)) h
  ++ trace (event_loop E this fuel) (final (uncaught EUncaught (run E this)) h).
Proof.
  unfold start, trace, final, bind, uncaught.
  destruct (run E this h) as [[[[]|e] h1] t1]; simpl;
    destruct (event_loop E this fuel h1) as [[r h2] t2]; reflexivity.
Qed.

(** The protocol of one call of [run] from the loop, and what is left
    for the loop after it. *)
Lemma run_cycle (h : Host E) :
  timers h = [] ->
  (protocol (trace (uncaught EUncaught (run E this)) h) = [Decide None] /\
   timers (final (uncaught EUncaught (run E this)) h) = []) \/
  (exists m,
     protocol (trace (uncaught EUncaught (run E this)) h)
     = [Decide (Some m); Render] /\
     timers (final (uncaught EUncaught (run E this)) h) = []) \/
  (exists m,
     protocol (trace (uncaught EUncaught (run E this)) h)
     = [Decide (Some m); Render; Commit m] /\
     timers (final (uncaught EUncaught (run E this)) h) = [3%Z]).
Proof.
  intros Ht. rewrite uncaught_trace, uncaught_final.
  destruct (Rust.step E (game h)) as [[m|] g1] eqn:Hstep.
  - rewrite (run_trace h m g1 Hstep), (run_final h m g1 Hstep), (run_outcome h m g1 Hstep).
    right. rewrite Ht.
    assert (P := render_protocol {| game := g1; timers := [] |}).
    destruct (outcome (render E this) _) as [[]|e]; simpl.
    + right. exists m. split; [|reflexivity].
      rewrite app_nil_r.
      change (EStep (Some m) :: ?t ++ ?u) with ([EStep (Some m)] ++ t ++ u).
      rewrite !protocol_app, P. reflexivity.
    + left. exists m. split; [|reflexivity].
      rewrite app_nil_r.
      change (EStep (Some m) :: ?t ++ ?u) with ([EStep (Some m)] ++ t ++ u).
      rewrite !protocol_app, P. reflexivity.
  - left. unfold trace, final, outcome. rewrite (run_no_move h g1 Hstep). simpl.
    split; [reflexivity | assumption].
Qed.

(** The loop goes cycle by cycle. *)
Lemma event_loop_cycles (fuel : nat) (h : Host E) :
  (List.length (timers h) <= 1)%nat ->
  cycles (protocol (trace (event_loop E this fuel) h)).
Proof.
  revert h. induction fuel as [|fuel IH]; intros h Hl.
  - constructor.
  - destruct (timers h) as [|ms waiting] eqn:Ht.
    + unfold trace. rewrite (event_loop_idle _ h Ht). constructor.
    + assert (waiting = []) as -> by (destruct waiting; [reflexivity | simpl in Hl; lia]).
      set (h0 := {| game := game h; timers := [] |}).
      replace (trace (event_loop E this (Datatypes.S fuel)) h)
        with (trace (start E this fuel) h0)
        by (unfold trace; rewrite (event_loop_fires fuel h _ _ Ht); reflexivity).
      rewrite start_trace, protocol_app.
      destruct (run_cycle h0 eq_refl) as [[-> Hf] | [(m & -> & Hf) | (m & -> & Hf)]].
      * unfold trace. rewrite (event_loop_idle _ _ Hf). constructor.
      * unfold trace. rewrite (event_loop_idle _ _ Hf). constructor.
      * simpl. constructor. apply IH. rewrite Hf. simpl. lia.
Qed.

(** C1: the loop goes cycle by cycle, and a cycle is a decision, then the
    rendering, then the commit of the move decided: between two renderings
    and between two commits of a run there is a decision, and the frame a
    cycle renders is the frame of the state the decision left, the move
    being committed on that state when the rendering is over. *)
Theorem cycle_is_decide_render_commit (fuel : nat) (h : Host E) :
  timers h = [] ->
  cycles (protocol (trace (start E this fuel) h)) /\
  (forall a b c,
     protocol (trace (start E this fuel) h) = a ++ Render :: b ++ Render :: c ->
     exists r, In (Decide r) b) /\
  (forall a b c m m',
     protocol (trace (start E this fuel) h) = a ++ Commit m :: b ++ Commit m' :: c ->
     exists r, In (Decide r) b) /\
  (forall m g1,
     Rust.step E (game h) = (Some m, g1) ->
     trace (run E this) h =
     EStep (Some m)
     :: trace (render E this) {| game := g1; timers := timers h |}
     ++ (if is_ok (outcome (render E this) {| game := g1; timers := timers h |})
         then [EInput m; ESetTimeout 3] else []) /\
     game (final (run E this) h) =
     if is_ok (outcome (render E this) {| game := g1; timers := timers h |})
     then Rust.input E m g1 else g1).
Proof.
  intros Ht.
  assert (C : cycles (protocol (trace (start E this fuel) h))).
  { assert (L := event_loop_cycles (Datatypes.S fuel)
                   {| game := game h; timers := [3%Z] |}).
    unfold trace in *.
    rewrite (event_loop_fires fuel {| game := game h; timers := [3%Z] |}
               3%Z [] eq_refl) in L.
    destruct h as [g ts]. simpl in Ht, L. subst ts. apply L. simpl. lia. }
  split; [exact C|]. split; [|split].
  - intros a b c Hp. apply (cycles_spaced _ C a Render b Render c Hp).
    left. split; reflexivity.
  - intros a b c m m' Hp. apply (cycles_spaced _ C a (Commit m) b (Commit m') c Hp).
    right. split; reflexivity.
  - intros m g1 Hstep. split; [apply run_trace; assumption|].
    rewrite (run_final h m g1 Hstep).
    destruct (is_ok _); reflexivity.
Qed.

(** C6: in a cycle in which no move is decided nothing is rendered,
    nothing is committed and no timer is set; the loop has then nothing
    more to run, and neither the engine nor anything else is called
    again. *)
Theorem no_move_stops (h : Host E) (g1 : Rust.state E) :
  Rust.step E (game h) = (None, g1) ->
  run E this h = (Ok tt, {| game := g1; timers := timers h |}, [EStep None]) /\
  (timers h = [] ->
   forall fuel,
     start E this fuel h = (Ok tt, {| game := g1; timers := [] |}, [EStep None]) /\
     event_loop E this fuel {| game := g1; timers := [] |}
     = (Ok tt, {| game := g1; timers := [] |}, [])) /\
  (forall ms fuel,
     timers h = [ms] ->
     event_loop E this (Datatypes.S fuel) h
     = (Ok tt, {| game := g1; timers := [] |}, [EStep None])).
Proof.
  intros Hstep. split; [apply run_no_move; assumption|]. split.
  - intros Ht fuel. split; [|apply event_loop_idle; reflexivity].
    unfold start, bind, uncaught. rewrite (run_no_move h g1 Hstep), Ht.
    rewrite event_loop_idle by reflexivity. reflexivity.
  - intros ms fuel Ht. rewrite (event_loop_fires fuel h _ _ Ht).
    unfold start, bind, uncaught.
    rewrite (run_no_move {| game := game h; timers := [] |} g1 Hstep). simpl.
    rewrite event_loop_idle by reflexivity. reflexivity.
Qed.

(** *** The view and the score *)

Lemma render_views (h : Host E) :
  filter is_view (trace (render E this) h) =
  [EView (Rust.display E (game h)) (Rust.display_len E (game h))].
Proof.
  destruct (render_cells_only h) as (t & -> & Ht).
  rewrite filter_app. simpl. rewrite filter_none; [reflexivity|].
  eapply Forall_impl; [|exact Ht].
  intros [| | | | c | o | |] H; try reflexivity; discriminate H.
Qed.

Lemma render_entries (h : Host E) :
  filter is_render_entry (trace (render E this) h) = [ERender].
Proof.
  destruct (render_cells_only h) as (t & -> & Ht).
  rewrite filter_app. simpl. rewrite filter_none; [reflexivity|].
  eapply Forall_impl; [|exact Ht].
  intros [| | | | c | o | |] H; try reflexivity; discriminate H.
Qed.

Lemma render_score_calls (h : Host E) :
  filter is_score_call (trace (render E this) h) =
  [ECanvas (DrawScore (of_Z (Rust.score E (game h))));
   ECtx (fillText (of_Z (Rust.score E (game h)))
           (mul (sub (of_Z (cols (canvas this))) (of_Z 3)) (colWidth (canvas this)))
           (mul one_point_75 (rowHeight (canvas this))))].
Proof.
  destruct (render_cells_only h) as (t & -> & Ht).
  rewrite filter_app. simpl. rewrite filter_none; [reflexivity|].
  eapply Forall_impl; [|exact Ht].
  intros [| | | | [] | [] | |] H; try reflexivity; discriminate H.
Qed.

(** A cycle builds as many views as it enters renderings. *)
Lemma run_views_entries (h : Host E) :
  List.length (filter is_view (trace (uncaught EUncaught (run E this)) h)) =
  List.length (filter is_render_entry (trace (uncaught EUncaught (run E this)) h)).
Proof.
  rewrite uncaught_trace.
  destruct (Rust.step E (game h)) as [[m|] g1] eqn:Hstep.
  - rewrite (run_trace h m g1 Hstep).
    change (EStep (Some m) :: ?t ++ ?u) with ([EStep (Some m)] ++ t ++ u).
    rewrite !filter_app, render_views, render_entries.
    destruct (is_ok _); destruct (outcome (run E this) h); reflexivity.
  - unfold trace, outcome. rewrite (run_no_move h g1 Hstep). reflexivity.
Qed.

Lemma loop_views_entries (fuel : nat) (h : Host E) :
  List.length (filter is_view (trace (event_loop E this fuel) h)) =
  List.length (filter is_render_entry (trace (event_loop E this fuel) h)).
Proof.
  revert h. induction fuel as [|fuel IH]; intros h; [reflexivity|].
  destruct (timers h) as [|ms waiting] eqn:Ht.
  - unfold trace. rewrite (event_loop_idle _ h Ht). reflexivity.
  - replace (trace (event_loop E this (Datatypes.S fuel)) h)
      with (trace (start E this fuel) {| game := game h; timers := waiting |})
      by (unfold trace; rewrite (event_loop_fires fuel h _ _ Ht); reflexivity).
    rewrite start_trace, !filter_app, !length_app, run_views_entries, IH.
    reflexivity.
Qed.

(** C7: every [render] builds its byte view anew, once, at the pointer and
    the length the engine gives at that moment and on the memory of that
    moment, and keeps nothing of it: the state after [render] is the state
    before it, which has no place for a view; in a run of the loop there
    are as many views built as renderings entered. *)
Theorem view_is_built_by_each_render (fuel : nat) (h : Host E) :
  final (render E this) h = h /\
  filter is_view (trace (render E this) h) =
  [EView (Rust.display E (game h)) (Rust.display_len E (game h))] /\
  trace (render E this) h =
  prelude (canvas this) (Rust.score E (game h))
  ++ EView (Rust.display E (game h)) (Rust.display_len E (game h))
  :: match Uint8Array_new (Rust.memory_buffer E (game h))
             (Rust.display E (game h)) (Rust.display_len E (game h)) with
     | Ok view =>
         trace (forEach view (render_cell E this (Rust.cols E (game h)))) h
     | Throw _ => []
     end /\
  List.length (filter is_view (trace (start E this fuel) h)) =
  List.length (filter is_render_entry (trace (start E this fuel) h)).
Proof.
  split; [apply render_final|]. split; [apply render_views|].
  split; [apply render_trace|].
  rewrite start_trace, !filter_app, !length_app, run_views_entries,
    loop_views_entries.
  reflexivity.
Qed.

(** C8: the rendering of a cycle calls [drawScore] once, with the value
    the engine's [score] returns at that moment, and [drawScore] writes
    that value at the point [(cols - 3) * colWidth], [1.75 * rowHeight]. *)
Theorem score_is_drawn_at_anchor (h : Host E) :
  filter is_score_call (trace (render E this) h) =
  [ECanvas (DrawScore (of_Z (Rust.score E (game h))));
   ECtx (fillText (of_Z (Rust.score E (game h)))
           (mul (sub (of_Z (cols (canvas this))) (of_Z 3)) (colWidth (canvas this)))
           (mul one_point_75 (rowHeight (canvas this))))] /\
  (forall m g1,
     Rust.step E (game h) = (Some m, g1) ->
     filter is_score_call (trace (run E this) h) =
     [ECanvas (DrawScore (of_Z (Rust.score E g1)));
      ECtx (fillText (of_Z (Rust.score E g1))
              (mul (sub (of_Z (cols (canvas this))) (of_Z 3)) (colWidth (canvas this)))
              (mul one_point_75 (rowHeight (canvas this))))]).
Proof.
  split; [apply render_score_calls|].
  intros m g1 Hstep. rewrite (run_trace h m g1 Hstep).
  change (EStep (Some m) :: ?t ++ ?u) with ([EStep (Some m)] ++ t ++ u).
  rewrite !filter_app, render_score_calls.
  destruct (is_ok _); reflexivity.
Qed.

End GameFacts.

(** ** The page on the engine of two cells *)

Lemma cycle_is_decide_render_commit_witness :
  timers (Stub.host Stub.two_cells 0%nat) = [] /\
  cycles (protocol (trace (start Stub.two_cells (Stub.page Stub.two_cells 0%nat) 5)
                      (Stub.host Stub.two_cells 0%nat))).
Proof.
  split; [reflexivity|].
  exact (proj1 (cycle_is_decide_render_commit Stub.two_cells
                  (Stub.page Stub.two_cells 0%nat) 5
                  (Stub.host Stub.two_cells 0%nat) eq_refl)).
Defined.

Lemma cell_of_index_witness :
  render_cell Stub.two_cells (Stub.page Stub.two_cells 0%nat) 4 x01 5 =
  draw_cell Stub.two_cells (Stub.page Stub.two_cells 0%nat)
    (of_Z (Z.rem 5 4)) (of_Z (5 / 4)) x01.
Proof.
  exact (proj1 (cell_of_index Stub.two_cells (Stub.page Stub.two_cells 0%nat)
                  4 3 (repeat x01 12) 5 x01 eq_refl eq_refl)).
Defined.

(** The claim C3 as it was stated fails: the byte 9 is not a known kind,
    and the decoding of a view that holds it leaves no mark, neither an
    event nor an exception; the whole run of the page on the frame
    [9, 4] is, event for event, its run on the frame [0, 4]. *)
Lemma unknown_byte_leaves_no_mark :
  byte_known x09 = false /\
  ~ marked (forEach [x09] (render_cell Stub.two_cells
                             (Stub.page Stub.two_cells 0%nat) 2)
              (Stub.host Stub.two_cells 0%nat)) /\
  trace (start (Stub.engine 2 1 42 [x09; x04] 1)
           (Stub.page (Stub.engine 2 1 42 [x09; x04] 1) 0%nat) 5)
    (Stub.host (Stub.engine 2 1 42 [x09; x04] 1) 0%nat) =
  trace (start Stub.two_cells (Stub.page Stub.two_cells 0%nat) 5)
    (Stub.host Stub.two_cells 0%nat).
Proof.
  split; [reflexivity|]. split; [|reflexivity].
  intros [H | H]; [apply H; reflexivity | discriminate H].
Qed.

Lemma unknown_byte_skipped_witness :
  forEach ([x01] ++ x09 :: [x04])
    (render_cell Stub.two_cells (Stub.page Stub.two_cells 0%nat) 2)
    (Stub.host Stub.two_cells 0%nat) =
  forEach ([x01] ++ x00 :: [x04])
    (render_cell Stub.two_cells (Stub.page Stub.two_cells 0%nat) 2)
    (Stub.host Stub.two_cells 0%nat).
Proof.
  exact (proj2 (proj2 (unknown_byte_skipped Stub.two_cells
                         (Stub.page Stub.two_cells 0%nat) 2 [x01] [x04] x09 0
                         (Stub.host Stub.two_cells 0%nat) eq_refl))).
Defined.

Lemma no_move_stops_witness :
  run (Stub.engine 2 1 42 [x00; x04] 0)
    (Stub.page (Stub.engine 2 1 42 [x00; x04] 0) 0%nat)
    (Stub.host (Stub.engine 2 1 42 [x00; x04] 0) 0%nat) =
  (Ok tt, Stub.host (Stub.engine 2 1 42 [x00; x04] 0) 0%nat, [EStep None]).
Proof.
  exact (proj1 (no_move_stops (Stub.engine 2 1 42 [x00; x04] 0)
                  (Stub.page (Stub.engine 2 1 42 [x00; x04] 0) 0%nat)
                  (Stub.host (Stub.engine 2 1 42 [x00; x04] 0) 0%nat)
                  0%nat eq_refl)).
Defined.

Lemma score_is_drawn_at_anchor_witness :
  filter is_score_call
    (trace (run Stub.two_cells (Stub.page Stub.two_cells 0%nat))
       (Stub.host Stub.two_cells 0%nat)) =
  [ECanvas (DrawScore (of_Z 42));
   ECtx (fillText (of_Z 42) (of_Z (-100)) (of_Z 175))].
Proof.
  exact (proj2 (score_is_drawn_at_anchor Stub.two_cells
                  (Stub.page Stub.two_cells 0%nat)
                  (Stub.host Stub.two_cells 0%nat)) 0%nat 0%nat eq_refl).
Defined.

Lemma render_stays_in_grid_witness :
  outcome (render Stub.two_cells (Stub.page Stub.two_cells 0%nat))
    (Stub.host Stub.two_cells 0%nat) = Ok tt /\
  Forall (call_in_grid (canvas (Stub.page Stub.two_cells 0%nat)))
    (trace (render Stub.two_cells (Stub.page Stub.two_cells 0%nat))
       (Stub.host Stub.two_cells 0%nat)).
Proof.
  apply (render_stays_in_grid Stub.two_cells (Stub.page Stub.two_cells 0%nat)
           (Stub.host Stub.two_cells 0%nat) [x00; x04]).
  - reflexivity.
  - reflexivity.
  - reflexivity.
  - reflexivity.
  - simpl. lia.
Defined.

(** The run of the page on the engine of two cells: one frame is rendered,
    with nothing drawn for the cell (0, 0) and a red ball for the cell
    (1, 0), the move is committed, and the second cycle decides no move. *)
Example two_cells_run :
  start Stub.two_cells (Stub.page Stub.two_cells 0%nat) 5
    (Stub.host Stub.two_cells 0%nat) =
  (Ok tt, Stub.host Stub.two_cells 1%nat,
   [EStep (Some 0%nat)]
   ++ prelude (canvas (Stub.page Stub.two_cells 0%nat)) 42
   ++ [EView 8 2;
       ECanvas (DrawBall (of_Z 1) (of_Z 0) (Some "red"%string));
       ECtx beginPath;
       ECtx (arc (of_Z 150) (of_Z 50) (of_Z 50) (of_Z 0)
               (mul (of_Z 2) Math_PI) false);
       ECtx (set_fillStyle "red");
       ECtx fill;
       EInput 0%nat;
       ESetTimeout 3;
       EStep None]).
Proof. vm_compute. reflexivity. Qed.

(** * Further properties of the code *)

(** ** The drawing methods *)
Section CanvasMore.
Context {S move : Type}.
Variable this : Canvas.

Lemma ctx_ops_app (t1 t2 : list (event move)) :
  ctx_ops (t1 ++ t2) = ctx_ops t1 ++ ctx_ops t2.
Proof. apply flat_map_app. Qed.

Lemma canvas_calls_app (t1 t2 : list (event move)) :
  canvas_calls (t1 ++ t2) = canvas_calls t1 ++ canvas_calls t2.
Proof. apply flat_map_app. Qed.

(** X1: a call of [drawBlock] or of [drawBall] without a colour, or with
    the empty string for colour, does on the drawing context what the call
    with 'navy' does, and ends as it does; a colour that is given and not
    empty is the fill style that is set. *)
Theorem missing_color_is_navy (x y : num) (color : option string) (s : S) :
  (falsy color = true ->
   ctx_ops (trace (drawBlock (move:=move) this x y color) s)
   = ctx_ops (trace (drawBlock (move:=move) this x y (Some "navy"%string)) s) /\
   outcome (drawBlock (move:=move) this x y color) s
   = outcome (drawBlock (move:=move) this x y (Some "navy"%string)) s /\
   ctx_ops (trace (drawBall (move:=move) this x y color) s)
   = ctx_ops (trace (drawBall (move:=move) this x y (Some "navy"%string)) s) /\
   outcome (drawBall (move:=move) this x y color) s
   = outcome (drawBall (move:=move) this x y (Some "navy"%string)) s) /\
  (forall c, color = Some c -> falsy color = false ->
   outcome (drawBlock (move:=move) this x y color) s = Ok tt ->
   In (set_fillStyle c) (ctx_ops (trace (drawBlock (move:=move) this x y color) s)) /\
   In (set_fillStyle c) (ctx_ops (trace (drawBall (move:=move) this x y color) s))).
Proof.
  unfold trace, outcome. rewrite !drawBlock_run, !drawBall_run. split.
  - intros Hf. unfold color_or_navy. rewrite Hf.
    destruct (gtb x _ || gtb y _); repeat split; reflexivity.
  - intros c -> Hf. unfold color_or_navy. rewrite Hf.
    destruct (gtb x _ || gtb y _); simpl; [discriminate|].
    intros _. split; right; right; left; reflexivity.
Qed.

(** X2: a call of [drawBlock] or of [drawBall] that throws has drawn
    nothing: the test comes before every operation on the drawing context;
    a call that returns has made four operations, from [beginPath] to
    [fill].  In both cases the state is left as it was. *)
Theorem refused_call_draws_nothing (x y : num) (color : option string) (s : S) :
  (is_ok (outcome (drawBlock (move:=move) this x y color) s) = false ->
   ctx_ops (trace (drawBlock (move:=move) this x y color) s) = []) /\
  (is_ok (outcome (drawBall (move:=move) this x y color) s) = false ->
   ctx_ops (trace (drawBall (move:=move) this x y color) s) = []) /\
  (is_ok (outcome (drawBlock (move:=move) this x y color) s) = true ->
   exists path fillStyle,
     ctx_ops (trace (drawBlock (move:=move) this x y color) s)
     = [beginPath; path; set_fillStyle fillStyle; fill]) /\
  (is_ok (outcome (drawBall (move:=move) this x y color) s) = true ->
   exists path fillStyle,
     ctx_ops (trace (drawBall (move:=move) this x y color) s)
     = [beginPath; path; set_fillStyle fillStyle; fill]) /\
  final (drawBlock (move:=move) this x y color) s = s /\
  final (drawBall (move:=move) this x y color) s = s.
Proof.
  unfold trace, outcome, final. rewrite !drawBlock_run, !drawBall_run.
  destruct (gtb x _ || gtb y _); simpl; repeat split;
    try reflexivity; try discriminate; intros _; eexists _, _; reflexivity.
Qed.

(** X3: the test of the drawing methods on numbers that are not finite: a
    [NaN] coordinate is never refused for itself (every comparison with
    [NaN] is false), so that [(NaN, NaN)] is accepted on every canvas; a
    coordinate [+Infinity] is refused on every canvas, whatever the other
    coordinate; [-Infinity] is never above a bound; with one coordinate
    [NaN], either method refuses the call exactly when the other
    coordinate is above its bound. *)
Theorem nonfinite_coordinates (y : num) (color : option string) (s : S) :
  outcome (drawBlock (move:=move) this NaN NaN color) s = Ok tt /\
  outcome (drawBall (move:=move) this NaN NaN color) s = Ok tt /\
  outcome (drawBlock (move:=move) this PInf y color) s = Throw (OutOfBounds PInf y) /\
  outcome (drawBall (move:=move) this PInf y color) s = Throw (OutOfBounds PInf y) /\
  outcome (drawBlock (move:=move) this y PInf color) s = Throw (OutOfBounds y PInf) /\
  outcome (drawBall (move:=move) this y PInf color) s = Throw (OutOfBounds y PInf) /\
  outcome (drawBlock (move:=move) this NInf NInf color) s = Ok tt /\
  outcome (drawBall (move:=move) this NInf NInf color) s = Ok tt /\
  outcome (drawBlock (move:=move) this NaN y color) s
  = (if gtb y (of_Z (rows this)) then Throw (OutOfBounds NaN y) else Ok tt) /\
  outcome (drawBall (move:=move) this NaN y color) s
  = (if gtb y (of_Z (rows this)) then Throw (OutOfBounds NaN y) else Ok tt) /\
  outcome (drawBlock (move:=move) this y NaN color) s
  = (if gtb y (of_Z (cols this)) then Throw (OutOfBounds y NaN) else Ok tt) /\
  outcome (drawBall (move:=move) this y NaN color) s
  = (if gtb y (of_Z (cols this)) then Throw (OutOfBounds y NaN) else Ok tt).
Proof.
  unfold outcome. rewrite !drawBlock_run, !drawBall_run.
  assert (Hy : forall n, gtb y (of_Z n) || true = true) by (intros; apply orb_true_r).
  assert (Hn : forall n, gtb y (of_Z n) || gtb NaN (of_Z (rows this))
                         = gtb y (of_Z n)) by (intros; apply orb_false_r).
  repeat split; try reflexivity; try (simpl; rewrite ?Hy; reflexivity);
    try (simpl; destruct (gtb y _); reflexivity);
    rewrite Hn; destruct (gtb y _); reflexivity.
Qed.

End CanvasMore.

Lemma missing_color_is_navy_witness :
  ctx_ops (trace (drawBlock (move:=unit) Stub.canvas (of_Z 1) (of_Z 0) (Some ""%string)) tt)
  = ctx_ops (trace (drawBlock (move:=unit) Stub.canvas (of_Z 1) (of_Z 0)
                      (Some "navy"%string)) tt) /\
  In (set_fillStyle "red")
    (ctx_ops (trace (drawBlock (move:=unit) Stub.canvas (of_Z 1) (of_Z 0)
                       (Some "red"%string)) tt)).
Proof.
  split.
  - exact (proj1 (proj1 (missing_color_is_navy (move:=unit) Stub.canvas
                           (of_Z 1) (of_Z 0) (Some ""%string) tt) eq_refl)).
  - exact (proj1 (proj2 (missing_color_is_navy (move:=unit) Stub.canvas
                           (of_Z 1) (of_Z 0) (Some "red"%string) tt)
                    "red"%string eq_refl eq_refl eq_refl)).
Defined.

Lemma refused_call_draws_nothing_witness :
  ctx_ops (trace (drawBlock (move:=unit) Stub.canvas (of_Z 3) (of_Z 0) None) tt) = [].
Proof.
  exact (proj1 (refused_call_draws_nothing (move:=unit) Stub.canvas
                  (of_Z 3) (of_Z 0) None tt) eq_refl).
Defined.

(** ** The decoding of a frame *)
Section FrameMore.
Variable E : Rust.Engine.
Variable this : Game.

(** The bytes 0 to 4 are told apart by the tests of [draw_cell]. *)
Lemma byte_draws_cases (b : byte) :
  byte_draws b = true ->
  byte_is b 0 = false /\
  (byte_is b 1 = true \/ byte_is b 2 = true \/ byte_is b 3 = true
   \/ byte_is b 4 = true).
Proof.
  unfold byte_draws, byte_is. intros H.
  destruct (N.eqb_spec (Byte.to_N b) 0) as [e0|]; split; try reflexivity.
  - rewrite e0 in H. discriminate H.
  - rewrite e0 in H. discriminate H.
  - repeat (apply orb_true_iff in H; destruct H as [H|H]); auto.
Qed.

(** The outcome of the drawing of a cell that holds a kind to draw is the
    outcome of the test of the bounds. *)
Lemma draw_cell_outcome (x y : num) (b : byte) (h : Host E) :
  byte_draws b = true ->
  outcome (draw_cell E this x y b) h =
  if gtb x (of_Z (cols (canvas this))) || gtb y (of_Z (rows (canvas this)))
  then Throw (OutOfBounds x y) else Ok tt.
Proof.
  intros H. destruct (byte_draws_cases b H) as [H0 _].
  unfold byte_draws in H. unfold outcome, draw_cell. rewrite H0.
  destruct (byte_is b 1);
    [rewrite drawBlock_run; destruct (gtb x _ || gtb y _); reflexivity|].
  destruct (byte_is b 2);
    [rewrite drawBlock_run; destruct (gtb x _ || gtb y _); reflexivity|].
  destruct (byte_is b 3);
    [rewrite drawBlock_run; destruct (gtb x _ || gtb y _); reflexivity|].
  destruct (byte_is b 4);
    [rewrite drawBall_run; destruct (gtb x _ || gtb y _); reflexivity|].
  discriminate H.
Qed.

(** X4: with [cols] columns, [cols] positive, the cell of index [i] that
    holds a kind to draw is refused exactly from the index
    [cols * (rows + 1)] on: the column [i % cols] is never above [cols],
    and the row [floor(i / cols)] is above [rows] only past the row
    [rows] itself, which the strict test lets through. *)
Theorem cell_refused_past_extra_row (b : byte) (i : nat) (h : Host E) :
  (0 < cols (canvas this))%Z ->
  byte_draws b = true ->
  (is_ok (outcome (render_cell E this (cols (canvas this)) b i) h) = false <->
   (cols (canvas this) * (rows (canvas this) + 1) <= Z.of_nat i)%Z).
Proof.
  intros Hc Hb.
  rewrite render_cell_coordinates by lia.
  rewrite (draw_cell_outcome _ _ b h Hb), !gtb_int.
  assert (Hx : (cols (canvas this) <? Z.rem (Z.of_nat i) (cols (canvas this)))%Z = false).
  { apply Z.ltb_ge. rewrite Z.rem_mod_nonneg by lia.
    pose proof (Z.mod_pos_bound (Z.of_nat i) (cols (canvas this)) Hc). lia. }
  rewrite Hx. simpl.
  destruct (Z.ltb_spec (rows (canvas this)) (Z.of_nat i / cols (canvas this))) as [Hlt|Hge];
    simpl; split; try discriminate; try reflexivity; intros H.
  - apply Z.le_trans with (cols (canvas this) * (Z.of_nat i / cols (canvas this)))%Z.
    + apply Z.mul_le_mono_nonneg_l; lia.
    + apply Z.mul_div_le. exact Hc.
  - exfalso. assert (rows (canvas this) + 1 <= Z.of_nat i / cols (canvas this))%Z.
    { apply Z.div_le_lower_bound; assumption. }
    lia.
Qed.

(** X5: when the engine gives zero columns, the quotient and the remainder
    by [cols] are not numbers of cells: the cell of index 0 is drawn at
    [(NaN, NaN)], which the test of the bounds lets through, and every
    later cell that holds a kind to draw is at the row [+Infinity] and is
    refused, on every canvas. *)
Theorem zero_columns (b : byte) (i : nat) (h : Host E) :
  byte_draws b = true ->
  render_cell E this 0 b 0 h = draw_cell E this NaN NaN b h /\
  outcome (render_cell E this 0 b 0) h = Ok tt /\
  render_cell E this 0 b (Datatypes.S i) h = draw_cell E this NaN PInf b h /\
  outcome (render_cell E this 0 b (Datatypes.S i)) h = Throw (OutOfBounds NaN PInf).
Proof.
  intros Hb.
  assert (E0 : render_cell E this 0 b 0 = draw_cell E this NaN NaN b) by reflexivity.
  assert (E1 : render_cell E this 0 b (Datatypes.S i) = draw_cell E this NaN PInf b)
    by reflexivity.
  rewrite E0, E1. rewrite !(draw_cell_outcome _ _ b h Hb).
  repeat split; reflexivity.
Qed.

End FrameMore.

Lemma cell_refused_past_extra_row_witness :
  is_ok (outcome (render_cell Stub.two_cells (Stub.page Stub.two_cells 0%nat)
                    2 x01 3)
           (Stub.host Stub.two_cells 0%nat)) = true /\
  is_ok (outcome (render_cell Stub.two_cells (Stub.page Stub.two_cells 0%nat)
                    2 x01 4)
           (Stub.host Stub.two_cells 0%nat)) = false.
Proof.
  split.
  - destruct (is_ok _) eqn:H; [reflexivity|].
    apply (cell_refused_past_extra_row Stub.two_cells
             (Stub.page Stub.two_cells 0%nat) x01 3
             (Stub.host Stub.two_cells 0%nat)) in H;
      [simpl in H; lia | simpl; lia | reflexivity].
  - apply (cell_refused_past_extra_row Stub.two_cells
             (Stub.page Stub.two_cells 0%nat) x01 4
             (Stub.host Stub.two_cells 0%nat));
      [simpl; lia | reflexivity | simpl; lia].
Defined.

Lemma zero_columns_witness :
  outcome (render_cell Stub.two_cells (Stub.page Stub.two_cells 0%nat) 0 x04 1)
    (Stub.host Stub.two_cells 0%nat) = Throw (OutOfBounds NaN PInf).
Proof.
  exact (proj2 (proj2 (proj2 (zero_columns Stub.two_cells
                                (Stub.page Stub.two_cells 0%nat) x04 0
                                (Stub.host Stub.two_cells 0%nat) eq_refl)))).
Defined.

(** ** The rendering of a frame *)
Section RenderMore.
Variable E : Rust.Engine.
Variable this : Game.

(** The call a cell makes on the canvas is recorded whether it is refused
    or not. *)
Lemma draw_cell_calls (x y : num) (b : byte) (h : Host E) :
  canvas_calls (trace (draw_cell E this x y b) h) =
  if byte_is b 0 then []
  else if byte_is b 1 then [DrawBlock x y (Some "black"%string)]
  else if byte_is b 2 || byte_is b 3 then [DrawBlock x y (Some "navy"%string)]
  else if byte_is b 4 then [DrawBall x y (Some "red"%string)]
  else [].
Proof.
  unfold trace, draw_cell.
  destruct (byte_is b 0); [reflexivity|].
  destruct (byte_is b 1);
    [rewrite drawBlock_run; destruct (gtb x _ || gtb y _); reflexivity|].
  destruct (byte_is b 2); simpl;
    [rewrite drawBlock_run; destruct (gtb x _ || gtb y _); reflexivity|].
  destruct (byte_is b 3); simpl;
    [rewrite drawBlock_run; destruct (gtb x _ || gtb y _); reflexivity|].
  destruct (byte_is b 4);
    [rewrite drawBall_run; destruct (gtb x _ || gtb y _); reflexivity|].
  reflexivity.
Qed.

Lemma byte_is_0_not_others (b : byte) :
  byte_is b 0 = true ->
  byte_is b 1 = false /\ byte_is b 2 = false /\ byte_is b 3 = false
  /\ byte_is b 4 = false.
Proof.
  unfold byte_is. intros H. apply N.eqb_eq in H. rewrite H.
  repeat split; reflexivity.
Qed.

Lemma render_cell_calls (cols : Z) (b : byte) (i : nat) (h : Host E) :
  cols <> 0%Z ->
  canvas_calls (trace (render_cell E this cols b i) h) = cell_call cols i b.
Proof.
  intros Hc. rewrite render_cell_coordinates by assumption.
  rewrite draw_cell_calls. unfold cell_call.
  destruct (byte_is b 0) eqn:H0; [|reflexivity].
  destruct (byte_is_0_not_others b H0) as (-> & -> & -> & ->). reflexivity.
Qed.

(** The calls of an iteration that succeeds are the calls of its cells, in
    the order of the indices. *)
Lemma forEach_cells_calls (cols : Z) (view : list byte) (k : nat) (h : Host E) :
  cols <> 0%Z ->
  outcome (forEach_from k view (render_cell E this cols)) h = Ok tt ->
  canvas_calls (trace (forEach_from k view (render_cell E this cols)) h)
  = cell_calls_from cols k view.
Proof.
  intros Hc. revert k. induction view as [|b view IH]; intros k Ho.
  - reflexivity.
  - assert (Hcall := render_cell_calls cols b k h Hc).
    assert (Hfin := render_cell_final E this cols b k h).
    specialize (IH (Datatypes.S k)).
    unfold outcome, trace, final in *. simpl in *. unfold bind in *.
    destruct (render_cell E this cols b k h) as [[[[]|e] h1] t1];
      simpl in *; [|discriminate Ho].
    subst h1.
    destruct (forEach_from (Datatypes.S k) view _ h) as [[r h2] t2].
    simpl in *. rewrite canvas_calls_app, Hcall, IH by assumption. reflexivity.
Qed.

(** X6: a rendering that returns has called the canvas for the surface,
    the border and the score, and then once for each cell of the frame
    that holds a kind to draw, in the order of the indices, at the column
    [i % cols] and the row [floor(i / cols)] and in the colour of the
    kind; it has made no other call. *)
Theorem render_calls_in_index_order (h : Host E) (view : list byte) :
  Uint8Array_new (Rust.memory_buffer E (game h))
    (Rust.display E (game h)) (Rust.display_len E (game h)) = Ok view ->
  Rust.cols E (game h) <> 0%Z ->
  outcome (render E this) h = Ok tt ->
  canvas_calls (trace (render E this) h) =
  [Clear; DrawBorder; DrawScore (of_Z (Rust.score E (game h)))]
  ++ cell_calls_from (Rust.cols E (game h)) 0 view.
Proof.
  intros Hview Hc Ho.
  assert (C := forEach_cells_calls (Rust.cols E (game h)) view 0 h Hc).
  unfold outcome, trace in *. rewrite render_run, Hview in *.
  unfold forEach in *.
  destruct (forEach_from 0 view _ h) as [[r h'] t]. simpl in *.
  rewrite C by assumption. reflexivity.
Qed.

(** A cell that throws has only recorded its call. *)
Lemma draw_cell_throw (x y : num) (b : byte) (h : Host E) (e : exn) :
  outcome (draw_cell E this x y b) h = Throw e ->
  e = OutOfBounds x y /\ ctx_ops (trace (draw_cell E this x y b) h) = [].
Proof.
  unfold outcome, trace, draw_cell.
  byte_cases b; rewrite ?drawBlock_run, ?drawBall_run;
    try (simpl; discriminate);
    destruct (gtb x _ || gtb y _); simpl; intros H;
      try discriminate H; injection H as <-; split; reflexivity.
Qed.

(** X7: the first cell that is refused ends the rendering: [render] throws
    the error of that cell, the cells before it have been drawn, the
    refused cell and the cells after it have not. *)
Theorem refused_cell_ends_frame (h : Host E) (before after : list byte)
  (b : byte) (e : exn) :
  Uint8Array_new (Rust.memory_buffer E (game h))
    (Rust.display E (game h)) (Rust.display_len E (game h))
  = Ok (before ++ b :: after) ->
  outcome (forEach before (render_cell E this (Rust.cols E (game h)))) h = Ok tt ->
  outcome (render_cell E this (Rust.cols E (game h)) b (List.length before)) h
  = Throw e ->
  outcome (render E this) h = Throw e /\
  trace (render E this) h =
  prelude (canvas this) (Rust.score E (game h))
  ++ EView (Rust.display E (game h)) (Rust.display_len E (game h))
  :: trace (forEach before (render_cell E this (Rust.cols E (game h)))) h
  ++ trace (render_cell E this (Rust.cols E (game h)) b (List.length before)) h /\
  ctx_ops (trace (render_cell E this (Rust.cols E (game h)) b
                    (List.length before)) h) = [].
Proof.
  intros Hview Hbefore Hcell.
  assert (Hfin := forEach_from_final (render_cell E this (Rust.cols E (game h)))
                    before 0 h (render_cell_final E this (Rust.cols E (game h)))).
  split; [|split].
  - unfold outcome in *. rewrite render_run, Hview. unfold forEach in *.
    rewrite forEach_from_app. unfold bind at 1. unfold final in Hfin.
    destruct (forEach_from 0 before _ h) as [[[[]|e'] h1] t1]; simpl in *;
      [|discriminate Hbefore].
    subst h1. unfold bind.
    destruct (render_cell E this _ b (List.length before) h) as [[r h2] t2].
    simpl in Hcell. subst r. reflexivity.
  - unfold outcome, trace in *. rewrite render_run, Hview. unfold forEach in *.
    rewrite forEach_from_app. unfold bind at 1. unfold final in Hfin.
    destruct (forEach_from 0 before _ h) as [[[[]|e'] h1] t1]; simpl in *;
      [|discriminate Hbefore].
    subst h1. unfold bind.
    destruct (render_cell E this _ b (List.length before) h) as [[r h2] t2].
    simpl in Hcell. subst r. reflexivity.
  - unfold render_cell in *. apply (draw_cell_throw _ _ b h e Hcell).
Qed.

(** X8: when the window the engine gives does not lie in the memory (a
    negative pointer or length, or an end past the end of the memory),
    [render] throws the [RangeError] of the view after it has drawn the
    border and the score: no cell is drawn, and the state is left as it
    was. *)
Theorem view_outside_memory (h : Host E) :
  (Rust.display E (game h) < 0 \/ Rust.display_len E (game h) < 0 \/
   Z.of_nat (List.length (Rust.memory_buffer E (game h)))
   < Rust.display E (game h) + Rust.display_len E (game h))%Z ->
  outcome (render E this) h = Throw RangeError /\
  trace (render E this) h =
  prelude (canvas this) (Rust.score E (game h))
  ++ [EView (Rust.display E (game h)) (Rust.display_len E (game h))] /\
  final (render E this) h = h.
Proof.
  intros Hout.
  assert (V : Uint8Array_new (Rust.memory_buffer E (game h))
                (Rust.display E (game h)) (Rust.display_len E (game h))
              = Throw RangeError).
  { unfold Uint8Array_new.
    destruct (Z.leb_spec 0 (Rust.display E (game h)));
      destruct (Z.leb_spec 0 (Rust.display_len E (game h)));
      destruct (Z.leb_spec (Rust.display E (game h) + Rust.display_len E (game h))
                  (Z.of_nat (List.length (Rust.memory_buffer E (game h)))));
      simpl; try reflexivity; lia. }
  unfold outcome, trace, final. rewrite render_run, V. repeat split.
Qed.

End RenderMore.

(** The view the constructor builds holds the bytes of the window, read
    one by one. *)
Lemma view_bytes (buffer : list byte) (byteOffset len : Z) :
  (0 <= byteOffset)%Z -> (0 <= len)%Z ->
  (byteOffset + len <= Z.of_nat (List.length buffer))%Z ->
  Uint8Array_new buffer byteOffset len = Ok (window buffer byteOffset len).
Proof.
  intros Ho Hl Hfit. unfold Uint8Array_new.
  destruct (Z.leb_spec 0 byteOffset); [|lia].
  destruct (Z.leb_spec 0 len); [|lia].
  destruct (Z.leb_spec (byteOffset + len) (Z.of_nat (List.length buffer))); [|lia].
  simpl. f_equal. apply nth_error_ext. intros i. unfold window.
  rewrite nth_error_firstn, nth_error_skipn, nth_error_map, nth_error_seq.
  destruct (Nat.ltb_spec i (Z.to_nat len)); [|reflexivity].
  simpl. apply nth_error_nth'. lia.
Qed.

Section RenderWindow.
Variable E : Rust.Engine.
Variable this : Game.

(** X15: [render] decodes the window of the memory that the engine names
    at that moment: when the window lies in the memory, the cell of index
    [i], for [i] below [display_len()], is decoded from the byte of the
    memory at the address [display() + i], and the frame has exactly
    [display_len()] cells. *)
Theorem render_decodes_window (h : Host E) :
  (0 <= Rust.display E (game h))%Z ->
  (0 <= Rust.display_len E (game h))%Z ->
  (Rust.display E (game h) + Rust.display_len E (game h)
   <= Z.of_nat (List.length (Rust.memory_buffer E (game h))))%Z ->
  render E this h =
  match forEach
          (window (Rust.memory_buffer E (game h)) (Rust.display E (game h))
             (Rust.display_len E (game h)))
          (render_cell E this (Rust.cols E (game h))) h with
  | (r, h', t) =>
      (r, h',
       prelude (canvas this) (Rust.score E (game h))
       ++ EView (Rust.display E (game h)) (Rust.display_len E (game h)) :: t)
  end /\
  List.length (window (Rust.memory_buffer E (game h)) (Rust.display E (game h))
                 (Rust.display_len E (game h)))
  = Z.to_nat (Rust.display_len E (game h)) /\
  forall i, (i < Z.to_nat (Rust.display_len E (game h)))%nat ->
    nth_error (window (Rust.memory_buffer E (game h)) (Rust.display E (game h))
                 (Rust.display_len E (game h))) i
    = nth_error (Rust.memory_buffer E (game h))
        (Z.to_nat (Rust.display E (game h)) + i).
Proof.
  intros Ho Hl Hfit. split; [|split].
  - rewrite render_run, (view_bytes _ _ _ Ho Hl Hfit). reflexivity.
  - unfold window. rewrite length_map, length_seq. reflexivity.
  - intros i Hi. unfold window. rewrite nth_error_map, nth_error_seq.
    apply Nat.ltb_lt in Hi. rewrite Hi. simpl. symmetry.
    apply nth_error_nth'. apply Nat.ltb_lt in Hi. lia.
Qed.

End RenderWindow.

(** ** The loop *)
Section LoopMore.
Variable E : Rust.Engine.
Variable this : Game.

(** The three ways a call of [run] from the loop can go. *)
Lemma cycle_shape (h : Host E) :
  timers h = [] ->
  match Rust.step E (game h) with
  | (None, g1) =>
      uncaught EUncaught (run E this) h
      = (Ok tt, {| game := g1; timers := [] |}, [EStep None])
  | (Some m, g1) =>
      match outcome (render E this) {| game := g1; timers := [] |} with
      | Ok _ =>
          uncaught EUncaught (run E this) h
          = (Ok tt, {| game := Rust.input E m g1; timers := [3%Z] |},
             EStep (Some m)
             :: trace (render E this) {| game := g1; timers := [] |}
             ++ [EInput m; ESetTimeout 3])
      | Throw e =>
          uncaught EUncaught (run E this) h
          = (Ok tt, {| game := g1; timers := [] |},
             EStep (Some m)
             :: trace (render E this) {| game := g1; timers := [] |}
             ++ [EUncaught e])
      end
  end.
Proof.
  intros Ht. unfold uncaught. rewrite run_run, Ht.
  destruct (Rust.step E (game h)) as [[m|] g1]; [|reflexivity].
  assert (F := render_final E this {| game := g1; timers := [] |}).
  unfold outcome, trace, final in *.
  destruct (render E this _) as [[[[]|e] h2] t]; simpl in *; subst h2; reflexivity.
Qed.

(** [render] makes none of the events of [run]. *)
Lemma render_no_driver_event (h : Host E) :
  Forall (fun ev => is_driver_event ev = false) (trace (render E this) h).
Proof.
  destruct (render_cells_only E this h) as (t & -> & Ht).
  apply Forall_app. split; [repeat constructor|].
  constructor; [reflexivity|].
  eapply Forall_impl; [|exact Ht].
  intros [| | | | c | o | |] H; try reflexivity; discriminate H.
Qed.

Lemma render_filter_none (p : event (Rust.move E) -> bool) (h : Host E) :
  (forall ev, is_driver_event ev = false -> p ev = false) ->
  filter p (trace (render E this) h) = [].
Proof.
  intros Hp. apply filter_none.
  eapply Forall_impl; [|apply render_no_driver_event]. exact Hp.
Qed.

(** X9: a rendering that throws halts the loop: the move that was decided
    is not committed, no timer is set, the exception is reported, and the
    engine stays in the state the decision left it in, however long the
    page is left running. *)
Theorem failed_render_halts (fuel : nat) (h : Host E) (m : Rust.move E)
  (g1 : Rust.state E) (e : exn) :
  timers h = [] ->
  Rust.step E (game h) = (Some m, g1) ->
  outcome (render E this) {| game := g1; timers := [] |} = Throw e ->
  start E this fuel h =
  (Ok tt, {| game := g1; timers := [] |},
   EStep (Some m)
   :: trace (render E this) {| game := g1; timers := [] |} ++ [EUncaught e]) /\
  filter is_input (trace (start E this fuel) h) = [] /\
  filter is_timeout (trace (start E this fuel) h) = [].
Proof.
  intros Ht Hstep Hr.
  assert (C := cycle_shape h Ht). rewrite Hstep, Hr in C.
  assert (St : start E this fuel h =
               (Ok tt, {| game := g1; timers := [] |},
                EStep (Some m)
                :: trace (render E this) {| game := g1; timers := [] |}
                ++ [EUncaught e])).
  { unfold start, bind. rewrite C.
    rewrite event_loop_idle by reflexivity. rewrite app_nil_r. reflexivity. }
  split; [exact St|].
  change (trace (start E this fuel) h) with (snd (start E this fuel h)).
  rewrite St. simpl.
  rewrite !filter_app. simpl.
  rewrite !render_filter_none; [split; reflexivity | |];
    intros [| | | | | | |] H; try reflexivity; discriminate H.
Qed.

(** When a timer fires the loop makes one cycle and goes on. *)
Lemma event_loop_step (fuel : nat) (h : Host E) (ms : Z) (waiting : list Z) :
  timers h = ms :: waiting ->
  event_loop E this (Datatypes.S fuel) h =
  (uncaught EUncaught (run E this) ;; event_loop E this fuel)
    {| game := game h; timers := waiting |}.
Proof.
  intros Ht. simpl. rewrite Ht. reflexivity.
Qed.

(** [start] is the loop with the first call of [run] as its first timer. *)
Lemma start_as_loop (fuel : nat) (h : Host E) :
  timers h = [] ->
  start E this fuel h =
  event_loop E this (Datatypes.S fuel) {| game := game h; timers := [3%Z] |}.
Proof.
  intros Ht. destruct h as [g ts]. simpl in *. subst ts. reflexivity.
Qed.

Lemma loop_timers (fuel : nat) (h : Host E) :
  (List.length (timers h) <= 1)%nat ->
  List.length (filter is_timeout (trace (event_loop E this fuel) h))
  = List.length (filter is_input (trace (event_loop E this fuel) h)) /\
  Forall (fun ev => forall ms, ev = ESetTimeout ms -> ms = 3%Z)
    (trace (event_loop E this fuel) h) /\
  (List.length (timers (final (event_loop E this fuel) h)) <= 1)%nat.
Proof.
  revert h. induction fuel as [|fuel IH]; intros h Hl.
  - repeat split; [constructor | exact Hl].
  - destruct (timers h) as [|ms waiting] eqn:Ht.
    + unfold trace, final. rewrite (event_loop_idle E this _ h Ht). simpl.
      repeat split; [constructor | rewrite Ht; simpl; lia].
    + assert (waiting = []) as ->
        by (destruct waiting; [reflexivity | simpl in Hl; lia]).
      unfold trace, final. rewrite (event_loop_step fuel h ms [] Ht).
      assert (C := cycle_shape {| game := game h; timers := [] |} eq_refl).
      simpl in C. unfold bind.
      destruct (Rust.step E (game h)) as [[m|] g1].
      * set (h1 := {| game := g1; timers := [] |}) in *.
        assert (N1 : filter is_timeout (trace (render E this) h1) = []).
        { apply render_filter_none.
          intros [| | | | | | |] H; try reflexivity; discriminate H. }
        assert (N2 : filter is_input (trace (render E this) h1) = []).
        { apply render_filter_none.
          intros [| | | | | | |] H; try reflexivity; discriminate H. }
        assert (N3 : Forall (fun ev : event (Rust.move E) =>
                               forall ms, ev = ESetTimeout ms -> ms = 3%Z)
                       (trace (render E this) h1)).
        { eapply Forall_impl; [|apply render_no_driver_event].
          intros ev Hev ms' ->. discriminate Hev. }
        destruct (outcome (render E this) h1) as [[]|e]; rewrite C.
        -- specialize (IH {| game := Rust.input E m g1; timers := [3%Z] |}).
           unfold trace, final in IH.
           destruct (event_loop E this fuel _) as [[r h2] t2]. simpl in *.
           destruct IH as (I1 & I2 & I3); [lia|].
           rewrite !filter_app, !length_app, N1, N2. simpl.
           repeat split; [lia | | exact I3].
           constructor; [intros ? H; discriminate H|].
           apply Forall_app. split; [|exact I2].
           apply Forall_app. split; [exact N3|].
           repeat constructor; intros ms' H; try discriminate H.
           injection H as <-. reflexivity.
        -- rewrite event_loop_idle by reflexivity. simpl.
           rewrite app_nil_r, !filter_app, N1, N2. simpl.
           repeat split; [|lia].
           constructor; [intros ? H; discriminate H|].
           apply Forall_app. split; [exact N3|].
           repeat constructor; intros ms' H; discriminate H.
      * rewrite C. rewrite event_loop_idle by reflexivity. simpl.
        repeat split; [|lia].
        repeat constructor; intros ms' H; discriminate H.
Qed.

(** X10: the loop sets one timer for each move it commits, each with the
    delay 3, and never has more than one timer waiting: one call of
    [run] at most is due at any moment. *)
Theorem one_timer_per_commit (fuel : nat) (h : Host E) :
  timers h = [] ->
  List.length (filter is_timeout (trace (start E this fuel) h))
  = List.length (filter is_input (trace (start E this fuel) h)) /\
  Forall (fun ev => forall ms, ev = ESetTimeout ms -> ms = 3%Z)
    (trace (start E this fuel) h) /\
  (List.length (timers (final (start E this fuel) h)) <= 1)%nat.
Proof.
  intros Ht. unfold trace, final. rewrite (start_as_loop fuel h Ht).
  apply (loop_timers (Datatypes.S fuel) {| game := game h; timers := [3%Z] |}).
  simpl. lia.
Qed.

(** The rendering of a frame that fits the canvas returns. *)
Lemma render_fits_ok (g : Rust.state E) (ts : list Z) :
  frame_fits E this g ->
  outcome (render E this) {| game := g; timers := ts |} = Ok tt.
Proof.
  intros (view & Hview & Hlen & Hc & Hr & Hnn).
  set (h := {| game := g; timers := ts |}).
  assert (Hcell : forall j b, nth_error view j = Some b ->
            outcome (render_cell E this (Rust.cols E g) b (0 + j)) h = Ok tt /\
            final (render_cell E this (Rust.cols E g) b (0 + j)) h = h /\
            Forall (fun _ => True)
              (trace (render_cell E this (Rust.cols E g) b (0 + j)) h)).
  { intros j b Hj. simpl.
    assert (Hlt : (j < List.length view)%nat).
    { apply nth_error_Some. congruence. }
    destruct (index_in_grid _ _ _ j Hnn Hlen Hlt) as (Hpos & Hx & Hy).
    rewrite render_cell_coordinates by lia.
    assert (G : in_grid (canvas this)
                  (of_Z (Z.rem (Z.of_nat j) (Rust.cols E g)))
                  (of_Z (Z.of_nat j / Rust.cols E g))).
    { eexists _, _. rewrite Hc, Hr. repeat split; lia. }
    destruct (draw_cell_in_grid E this _ _ b h G) as [Ho _].
    repeat split; [assumption | apply draw_cell_final |].
    apply Forall_forall. intros; exact I. }
  destruct (forEach_from_all_ok _ _ view 0 h Hcell) as (Ho & _ & _).
  unfold outcome in *. rewrite render_run. simpl. rewrite Hview.
  unfold forEach. destruct (forEach_from 0 view _ h) as [[r h'] t].
  exact Ho.
Qed.

Lemma loop_on_sound_engine (Inv : Rust.state E -> Prop) (fuel : nat) (h : Host E) :
  (forall g, Inv g -> Inv (snd (Rust.step E g))) ->
  (forall g m, Inv g -> Inv (Rust.input E m g)) ->
  (forall g, Inv g -> frame_fits E this g) ->
  Inv (game h) -> (List.length (timers h) <= 1)%nat ->
  filter is_uncaught (trace (event_loop E this fuel) h) = [] /\
  List.length (filter is_input (trace (event_loop E this fuel) h))
  = List.length (filter is_move_decided (trace (event_loop E this fuel) h)) /\
  Inv (game (final (event_loop E this fuel) h)).
Proof.
  intros Hstep Hinput Hfits. revert h.
  induction fuel as [|fuel IH]; intros h Hinv Hl.
  - repeat split. exact Hinv.
  - destruct (timers h) as [|ms waiting] eqn:Ht.
    + unfold trace, final. rewrite (event_loop_idle E this _ h Ht).
      repeat split. exact Hinv.
    + assert (waiting = []) as ->
        by (destruct waiting; [reflexivity | simpl in Hl; lia]).
      unfold trace, final. rewrite (event_loop_step fuel h ms [] Ht).
      assert (C := cycle_shape {| game := game h; timers := [] |} eq_refl).
      assert (Hinv1 := Hstep (game h) Hinv).
      simpl in C. unfold bind.
      destruct (Rust.step E (game h)) as [[m|] g1]; simpl in Hinv1.
      * rewrite (render_fits_ok g1 [] (Hfits g1 Hinv1)) in C. rewrite C.
        set (h1 := {| game := g1; timers := [] |}) in *.
        assert (N1 : filter is_uncaught (trace (render E this) h1) = []).
        { apply render_filter_none.
          intros [| | | | | | |] H; try reflexivity; discriminate H. }
        assert (N2 : filter is_input (trace (render E this) h1) = []).
        { apply render_filter_none.
          intros [| | | | | | |] H; try reflexivity; discriminate H. }
        assert (N3 : filter is_move_decided (trace (render E this) h1) = []).
        { apply render_filter_none.
          intros [[|]| | | | | | |] H; try reflexivity; discriminate H. }
        specialize (IH {| game := Rust.input E m g1; timers := [3%Z] |}).
        unfold trace, final in IH.
        destruct (event_loop E this fuel _) as [[r h2] t2]. simpl in *.
        destruct IH as (I1 & I2 & I3); [apply Hinput; assumption | lia |].
        rewrite !filter_app, !length_app, N1, N2, N3. simpl.
        repeat split; [assumption | lia | assumption].
      * rewrite C. rewrite event_loop_idle by reflexivity. simpl.
        repeat split. exact Hinv1.
Qed.

(** X12: on an engine whose frame always fits the canvas (an invariant of
    its states that [step] and [input] keep), the loop never meets an
    exception and commits every move that is decided. *)
Theorem sound_engine_never_fails (Inv : Rust.state E -> Prop) (fuel : nat)
  (h : Host E) :
  (forall g, Inv g -> Inv (snd (Rust.step E g))) ->
  (forall g m, Inv g -> Inv (Rust.input E m g)) ->
  (forall g, Inv g -> frame_fits E this g) ->
  Inv (game h) -> timers h = [] ->
  filter is_uncaught (trace (start E this fuel) h) = [] /\
  List.length (filter is_input (trace (start E this fuel) h))
  = List.length (filter is_move_decided (trace (start E this fuel) h)) /\
  Inv (game (final (start E this fuel) h)).
Proof.
  intros Hstep Hinput Hfits Hinv Ht.
  unfold trace, final. rewrite (start_as_loop fuel h Ht).
  apply (loop_on_sound_engine Inv (Datatypes.S fuel)
           {| game := game h; timers := [3%Z] |} Hstep Hinput Hfits Hinv).
  simpl. lia.
Qed.

(** X11: the loop ends when the engine does.  On an engine whose frame
    always fits the canvas, that decides [n] moves and then none, the
    loop, left to run for [n] firings of its timer or more, renders [n]
    frames and commits [n] moves, ends on the call of [step] that decides
    no move, and is left with no timer waiting and the engine in the
    state that last call left. *)
Theorem engine_stop_ends_loop (Inv : Rust.state E -> Prop) (n fuel : nat)
  (h : Host E) (gn g_end : Rust.state E) :
  (forall g, Inv g -> Inv (snd (Rust.step E g))) ->
  (forall g m, Inv g -> Inv (Rust.input E m g)) ->
  (forall g, Inv g -> frame_fits E this g) ->
  Inv (game h) -> timers h = [] ->
  after_cycles E n (game h) = Some gn ->
  Rust.step E gn = (None, g_end) ->
  (n <= fuel)%nat ->
  final (start E this fuel) h = {| game := g_end; timers := [] |} /\
  (exists t, trace (start E this fuel) h = t ++ [EStep None]) /\
  List.length (filter is_input (trace (start E this fuel) h)) = n /\
  List.length (filter is_render_entry (trace (start E this fuel) h)) = n.
Proof.
  intros Hstep Hinput Hfits. revert fuel h.
  induction n as [|n IH]; intros fuel h Hinv Ht Hn Hend Hfuel.
  - simpl in Hn. injection Hn as <-.
    assert (C := cycle_shape h Ht). rewrite Hend in C.
    unfold final, trace, start, bind. rewrite C.
    rewrite event_loop_idle by reflexivity. simpl.
    repeat split. exists []. reflexivity.
  - destruct fuel as [|fuel]; [lia|].
    assert (C := cycle_shape h Ht).
    assert (Hinv1 := Hstep (game h) Hinv).
    simpl in Hn.
    destruct (Rust.step E (game h)) as [[m|] g1]; [|discriminate Hn].
    simpl in Hinv1.
    rewrite (render_fits_ok g1 [] (Hfits g1 Hinv1)) in C.
    set (h1 := {| game := g1; timers := [] |}) in *.
    assert (N1 : filter is_input (trace (render E this) h1) = []).
    { apply render_filter_none.
      intros [| | | | | | |] H; try reflexivity; discriminate H. }
    assert (N2 := render_entries E this h1).
    set (h' := {| game := Rust.input E m g1; timers := [] |}).
    assert (St : start E this (Datatypes.S fuel) h =
                 match start E this fuel h' with
                 | (r, h3, t3) =>
                     (r, h3,
                      (EStep (Some m)
                       :: trace (render E this) h1 ++ [EInput m; ESetTimeout 3])
                      ++ t3)
                 end).
    { unfold start at 1. unfold bind at 1. rewrite C.
      rewrite (event_loop_fires E this fuel
                 {| game := Rust.input E m g1; timers := [3%Z] |} 3%Z []
                 eq_refl).
      cbn [game]. fold h'.
      destruct (start E this fuel h') as [[r h3] t3]. reflexivity. }
    specialize (IH fuel h' (Hinput g1 m Hinv1) eq_refl Hn Hend).
    destruct IH as (I1 & (t & I2) & I3 & I4); [lia|].
    unfold final, trace in I1, I2, I3, I4 |- *. rewrite St.
    destruct (start E this fuel h') as [[r h3] t3]. simpl in I1, I2, I3, I4 |- *.
    split; [exact I1|]. split.
    + exists (EStep (Some m)
              :: (trace (render E this) h1 ++ [EInput m; ESetTimeout 3]) ++ t).
      rewrite I2. simpl. rewrite <- !app_assoc. reflexivity.
    + rewrite !filter_app, !length_app. simpl.
      rewrite N1, N2. simpl. rewrite I3, I4. split; reflexivity.
Qed.

End LoopMore.

(** ** The geometry of the canvas *)
Section SignFacts.
Local Open Scope Q_scope.

Lemma sub_int (a b : Z) : sub (of_Z a) (of_Z b) = of_Z (a - b).
Proof.
  unfold sub, neg, add, of_Z. apply fin_inject. unfold fin.
  rewrite Qred_correct, <- inject_Z_opp, <- inject_Z_plus. reflexivity.
Qed.

Lemma fin_negative (q : Q) : q < 0 -> ltb (fin q) (of_Z 0) = true.
Proof.
  intros H. unfold ltb, gtb, fin, of_Z. apply negb_true_iff.
  destruct (Qle_bool (inject_Z 0) (Qred q)) eqn:Hb; [|reflexivity].
  apply Qle_bool_iff in Hb. rewrite Qred_correct in Hb.
  exfalso. apply (Qlt_not_le _ _ H). exact Hb.
Qed.

Lemma fin_positive (q : Q) : 0 < q -> gtb (fin q) (of_Z 0) = true.
Proof.
  intros H. unfold gtb, fin, of_Z. apply negb_true_iff.
  destruct (Qle_bool (Qred q) (inject_Z 0)) eqn:Hb; [|reflexivity].
  apply Qle_bool_iff in Hb. rewrite Qred_correct in Hb.
  exfalso. apply (Qlt_not_le _ _ H). exact Hb.
Qed.

(** The sign of [k * (w / c)] for a positive [w] and a positive [c]. *)
Lemma scaled_sign (k w c : Z) :
  (0 < w)%Z -> (0 < c)%Z ->
  ((k < 0)%Z -> inject_Z k * Qred (inject_Z w / inject_Z c) < 0) /\
  ((0 < k)%Z -> 0 < inject_Z k * Qred (inject_Z w / inject_Z c)).
Proof.
  intros Hw Hc.
  assert (P : 0 < inject_Z w / inject_Z c).
  { apply Qlt_shift_div_l.
    - change 0 with (inject_Z 0). rewrite <- Zlt_Qlt. exact Hc.
    - rewrite Qmult_0_l. change 0 with (inject_Z 0). rewrite <- Zlt_Qlt. exact Hw. }
  split; intros Hk; rewrite Qred_correct.
  - assert (Hk' : 0 < - inject_Z k).
    { rewrite <- inject_Z_opp. change 0 with (inject_Z 0).
      rewrite <- Zlt_Qlt. lia. }
    assert (M := Qmult_lt_0_compat _ _ Hk' P).
    apply Qopp_lt_compat in M.
    setoid_replace (- (- inject_Z k * (inject_Z w / inject_Z c)))
      with (inject_Z k * (inject_Z w / inject_Z c)) in M by ring.
    exact M.
  - apply Qmult_lt_0_compat; [|exact P].
    change 0 with (inject_Z 0). rewrite <- Zlt_Qlt. exact Hk.
Qed.

End SignFacts.

Section CanvasGeometry.
Context {S move : Type}.

(** X14: on a canvas of positive width, [drawScore] writes the score at an
    abscissa of the sign of [cols - 3]: left of the surface when the grid
    has one or two columns, on its left edge for three, inside for
    more. *)
Theorem score_anchor_side (can : HTMLCanvas) (c r : Z) (score : num) (s : S) :
  (0 < can_width can)%Z -> (0 < c)%Z ->
  exists x y,
    ctx_ops (trace (drawScore (move:=move) (Canvas_new can c r) score) s)
    = [set_font "25px Arial"; set_fillStyle "0,0,0"; fillText score x y] /\
    ((c < 3)%Z -> ltb x (of_Z 0) = true) /\
    (c = 3%Z -> x = of_Z 0) /\
    ((3 < c)%Z -> gtb x (of_Z 0) = true).
Proof.
  intros Hw Hc. eexists _, _. split; [reflexivity|].
  cbn [cols colWidth Canvas_new]. rewrite sub_int.
  assert (D : div (of_Z (can_width can)) (of_Z c)
              = fin (inject_Z (can_width can) / inject_Z c)).
  { unfold div, of_Z. rewrite sgn_inject_Z.
    destruct (Z.compare_spec c 0); [lia | lia | reflexivity]. }
  rewrite D. unfold mul, of_Z at 1 3 5, fin at 2 4 6.
  destruct (scaled_sign (c - 3) (can_width can) c Hw Hc) as [Hneg Hpos].
  split; [|split].
  - intros H. apply fin_negative. apply Hneg. lia.
  - intros ->. apply fin_inject. simpl (3 - 3)%Z.
    change (inject_Z 0) with 0%Q. apply Qmult_0_l.
  - intros H. apply fin_positive. apply Hpos. lia.
Qed.

(** X16: the sizes of a cell are finite exactly when [cols] and [rows] are
    not zero.  On a canvas made with zero columns and a positive width the
    width of a cell is [+Infinity], and the abscissa [drawBlock] computes
    is [NaN] for the column 0 and [+Infinity] for a positive column: no
    block is drawn at a place of the surface. *)
Theorem zero_columns_canvas (can : HTMLCanvas) (c r : Z) :
  finite (colWidth (Canvas_new can c r)) = negb (Z.eqb c 0) /\
  finite (rowHeight (Canvas_new can c r)) = negb (Z.eqb r 0) /\
  ((0 < can_width can)%Z ->
   colWidth (Canvas_new can 0 r) = PInf /\
   mul (colWidth (Canvas_new can 0 r)) (of_Z 0) = NaN /\
   forall x, (0 < x)%Z -> mul (colWidth (Canvas_new can 0 r)) (of_Z x) = PInf).
Proof.
  assert (F : forall w n, finite (div (of_Z w) (of_Z n)) = negb (Z.eqb n 0)).
  { intros w n. unfold div, of_Z. rewrite !sgn_inject_Z.
    destruct n as [|p|p]; simpl; [|reflexivity|reflexivity].
    destruct w; reflexivity. }
  split; [apply F|]. split; [apply F|].
  intros Hw. cbn [colWidth Canvas_new].
  destruct (can_width can) as [|p|p]; try lia.
  repeat split. intros x Hx. destruct x; try lia. reflexivity.
Qed.

End CanvasGeometry.

Lemma score_anchor_side_witness :
  exists x y,
    ctx_ops (trace (drawScore (move:=unit) (Canvas_new Stub.can 2 1) (of_Z 42)) tt)
    = [set_font "25px Arial"; set_fillStyle "0,0,0"; fillText (of_Z 42) x y] /\
    ((2 < 3)%Z -> ltb x (of_Z 0) = true) /\
    (2%Z = 3%Z -> x = of_Z 0) /\
    ((3 < 2)%Z -> gtb x (of_Z 0) = true).
Proof.
  apply (score_anchor_side (move:=unit) Stub.can 2 1 (of_Z 42) tt);
    simpl; lia.
Defined.

Lemma zero_columns_canvas_witness :
  colWidth (Canvas_new Stub.can 0 1) = PInf.
Proof.
  apply (zero_columns_canvas Stub.can 0 1). simpl. lia.
Defined.

(** ** The size of the canvas element *)

(** X13: [App] takes the size of the canvas from [props] only as a pair:
    when [props] is missing, or one of [width] and [height] is missing,
    zero, [NaN] or the empty string, both dimensions are those of the
    window, also the one that was given; the result never mixes a
    dimension of [props] with one of the window. *)
Theorem size_from_props_is_a_pair (innerWidth innerHeight : num)
  (props : option Props) :
  (App_size innerWidth innerHeight props = (JNumber innerWidth, JNumber innerHeight) \/
   exists p, props = Some p /\
     truthy (props_width p) = true /\ truthy (props_height p) = true /\
     App_size innerWidth innerHeight props = (props_width p, props_height p)) /\
  (forall p, props = Some p ->
     truthy (props_width p) = false \/ truthy (props_height p) = false ->
     App_size innerWidth innerHeight props
     = (JNumber innerWidth, JNumber innerHeight)).
Proof.
  split.
  - destruct props as [p|]; [|left; reflexivity]. unfold App_size.
    destruct (truthy (props_width p)) eqn:Hw, (truthy (props_height p)) eqn:Hh;
      simpl; try (left; reflexivity).
    right. exists p. repeat split; assumption.
  - intros p -> H. unfold App_size.
    destruct H as [-> | ->]; [reflexivity|]. rewrite andb_false_r. reflexivity.
Qed.

Lemma size_from_props_is_a_pair_witness :
  App_size (of_Z 1280) (of_Z 720)
    (Some {| props_width := JNumber (of_Z 0); props_height := JNumber (of_Z 480) |})
  = (JNumber (of_Z 1280), JNumber (of_Z 720)).
Proof.
  apply (proj2 (size_from_props_is_a_pair (of_Z 1280) (of_Z 720)
                  (Some {| props_width := JNumber (of_Z 0);
                           props_height := JNumber (of_Z 480) |}))
           _ eq_refl).
  left. reflexivity.
Defined.

(** ** The further properties on the engines of the examples *)

Lemma render_calls_in_index_order_witness :
  canvas_calls (trace (render Stub.two_cells (Stub.page Stub.two_cells 0%nat))
                  (Stub.host Stub.two_cells 0%nat)) =
  [Clear; DrawBorder; DrawScore (of_Z 42)]
  ++ cell_calls_from 2 0 [x00; x04].
Proof.
  apply (render_calls_in_index_order Stub.two_cells
           (Stub.page Stub.two_cells 0%nat) (Stub.host Stub.two_cells 0%nat)
           [x00; x04]).
  - reflexivity.
  - simpl. lia.
  - reflexivity.
Defined.

Lemma refused_cell_ends_frame_witness :
  outcome (render engine_long_frame (Stub.page engine_long_frame 0%nat))
    (Stub.host engine_long_frame 0%nat)
  = Throw (OutOfBounds (of_Z 0) (of_Z 2)).
Proof.
  exact (proj1 (refused_cell_ends_frame engine_long_frame
                  (Stub.page engine_long_frame 0%nat)
                  (Stub.host engine_long_frame 0%nat)
                  [x01; x00; x00; x00] [x01] x01
                  (OutOfBounds (of_Z 0) (of_Z 2))
                  eq_refl eq_refl eq_refl)).
Defined.

Lemma view_outside_memory_witness :
  outcome (render engine_outside_memory (Stub.page engine_outside_memory 0%nat))
    (Stub.host engine_outside_memory 0%nat)
  = Throw RangeError.
Proof.
  apply (view_outside_memory engine_outside_memory
           (Stub.page engine_outside_memory 0%nat)
           (Stub.host engine_outside_memory 0%nat)).
  right. right. simpl. lia.
Defined.

Lemma failed_render_halts_witness :
  filter is_input
    (trace (start engine_long_frame (Stub.page engine_long_frame 0%nat) 5)
       (Stub.host engine_long_frame 0%nat)) = [].
Proof.
  exact (proj1 (proj2 (failed_render_halts engine_long_frame
                         (Stub.page engine_long_frame 0%nat) 5
                         (Stub.host engine_long_frame 0%nat) 0%nat 0%nat
                         (OutOfBounds (of_Z 0) (of_Z 2))
                         eq_refl eq_refl eq_refl))).
Defined.

Lemma one_timer_per_commit_witness :
  (List.length
     (timers (final (start Stub.two_cells (Stub.page Stub.two_cells 0%nat) 5)
                (Stub.host Stub.two_cells 0%nat))) <= 1)%nat.
Proof.
  exact (proj2 (proj2 (one_timer_per_commit Stub.two_cells
                         (Stub.page Stub.two_cells 0%nat) 5
                         (Stub.host Stub.two_cells 0%nat) eq_refl))).
Defined.

Lemma sound_engine_never_fails_witness :
  filter is_uncaught
    (trace (start Stub.two_cells (Stub.page Stub.two_cells 0%nat) 5)
       (Stub.host Stub.two_cells 0%nat)) = [].
Proof.
  apply (sound_engine_never_fails Stub.two_cells
           (Stub.page Stub.two_cells 0%nat) (fun _ => True) 5
           (Stub.host Stub.two_cells 0%nat)).
  - intros g _. exact I.
  - intros g m _. exact I.
  - intros g _. exists [x00; x04].
    repeat split; try reflexivity. simpl. lia.
  - exact I.
  - reflexivity.
Defined.

Lemma engine_stop_ends_loop_witness :
  final (start Stub.two_cells (Stub.page Stub.two_cells 0%nat) 5)
    (Stub.host Stub.two_cells 0%nat)
  = Stub.host Stub.two_cells 1%nat /\
  List.length
    (filter is_input
       (trace (start Stub.two_cells (Stub.page Stub.two_cells 0%nat) 5)
          (Stub.host Stub.two_cells 0%nat))) = 1%nat.
Proof.
  assert (Hfits : forall g : Rust.state Stub.two_cells,
            True -> frame_fits Stub.two_cells (Stub.page Stub.two_cells 0%nat) g).
  { intros g _. exists [x00; x04]. repeat split; try reflexivity. simpl. lia. }
  assert (Hfuel : (1 <= 5)%nat) by lia.
  assert (W := engine_stop_ends_loop Stub.two_cells
                 (Stub.page Stub.two_cells 0%nat) (fun _ => True) 1 5
                 (Stub.host Stub.two_cells 0%nat) 1%nat 1%nat
                 (fun _ _ => I) (fun _ _ _ => I) Hfits I eq_refl eq_refl eq_refl
                 Hfuel).
  split; [exact (proj1 W) | exact (proj1 (proj2 (proj2 W)))].
Defined.

Lemma render_decodes_window_witness :
  render Stub.two_cells (Stub.page Stub.two_cells 0%nat)
    (Stub.host Stub.two_cells 0%nat) =
  match forEach
          (window (Rust.memory_buffer Stub.two_cells 0%nat) 8 2)
          (render_cell Stub.two_cells (Stub.page Stub.two_cells 0%nat) 2)
          (Stub.host Stub.two_cells 0%nat) with
  | (r, h', t) =>
      (r, h',
       prelude (canvas (Stub.page Stub.two_cells 0%nat)) 42 ++ EView 8 2 :: t)
  end.
Proof.
  assert (A : (0 <= 8)%Z) by lia.
  assert (B : (0 <= 2)%Z) by lia.
  assert (C : (8 + 2 <= 14)%Z) by lia.
  exact (proj1 (render_decodes_window Stub.two_cells
                  (Stub.page Stub.two_cells 0%nat)
                  (Stub.host Stub.two_cells 0%nat) A B C)).
Defined.
